(** * DataWrangling: shaping OSM elements into tabular records (data.py)

    A shallow embedding of the tag handling and element shaping code of
    [data.py]: [update_name], [update_city_name], [handle_tags] and
    [shape_element], with the regular expressions and string methods they
    call.

    Python values are modelled as follows.
    - A string object is a [string] (a sequence of 8-bit characters);
      upper-casing maps [a-z] to [A-Z] and leaves every other character
      alone, as [str.upper] does in the C locale.
    - Python 2 has two kinds of string objects. The XML parser gives a
      [str] for an attribute value that is all ASCII and a [unicode] for
      any other value, so a string that comes from the XML tree is a
      [unicode] exactly when it has a character outside ASCII; the
      method [.upper()] keeps the kind, and a match group is of the kind
      of the string searched. The cells of the frames and the lines
      read from the console are [str] objects. The function
      [str.upper] raises [TypeError] when it is given a [unicode], and a
      [unicode] with a character outside ASCII is equal to no [str].
      The model upper-cases a [unicode] as it does a [str]: the letters
      outside ASCII, which [.upper()] maps too, stay as they are.
    - [element.attrib] and the dicts [node_attribs] / [way_attribs] are
      finite maps [gmap string string]; indexing a dict with a key it
      does not hold raises [KeyError].
    - The two pandas frames are lists of rows, one record field per
      column; every cell holds a [str].
    - An exception is a value of [exn]; code that can raise returns a
      [result].

    The second part of the file adds [is_street_name],
    [audit_street_type], [addmappings], [buildcitiescrossreference] and
    [process_map]. There,
    - a [defaultdict(set)] is a [gmap string (gset string)];
    - standard input is the list of the lines still to be read, and
      [raw_input] at its end is the [EOFError]; a run of a console
      function that an exception ends gives [None];
    - a csv file is the list of its rows, and [process_map] runs over
      the node and way elements that [get_element] yields. *)

From Stdlib Require Import Ascii String List Bool Arith Lia DecimalString.
From stdpp Require Import gmap strings list fin_maps.

Import ListNotations.
Local Open Scope list_scope.

(** ** Exceptions *)

Inductive exn : Type :=
  | KeyError (key : string)
  | UnboundLocalError (name : string)
  | IndexError
  | TypeError.

Inductive result (A : Type) : Type :=
  | Ok (a : A)
  | Raise (e : exn).

Arguments Ok {A} a.
Arguments Raise {A} e.

Definition bind {A B : Type} (r : result A) (k : A -> result B) : result B :=
  match r with
  | Ok a => k a
  | Raise e => Raise e
  end.

Notation "'let*' x ':=' r 'in' k" := (bind r (fun x => k))
  (at level 10, x name, r at level 100, k at level 200, only parsing).

(** ** Characters and strings *)

Module Py.

(** [c in chars] for a one-character [c]. *)
Definition mem_ascii (c : ascii) (chars : list ascii) : bool :=
  existsb (Ascii.eqb c) chars.

Definition is_lower (c : ascii) : bool :=
  let n := nat_of_ascii c in (97 <=? n) && (n <=? 122).

Definition is_upper (c : ascii) : bool :=
  let n := nat_of_ascii c in (65 <=? n) && (n <=? 90).

Definition is_digit (c : ascii) : bool :=
  let n := nat_of_ascii c in (48 <=? n) && (n <=? 57).

Definition upper_ascii (c : ascii) : ascii :=
  if is_lower c then ascii_of_nat (nat_of_ascii c - 32) else c.

(** [s.upper()], and what [str.upper(s)] returns for a [str]. *)
Fixpoint upper (s : string) : string :=
  match s with
  | EmptyString => EmptyString
  | String c r => String (upper_ascii c) (upper r)
  end.

Definition is_ascii (c : ascii) : bool :=
  nat_of_ascii c <? 128.

(** [isinstance(s, unicode)] for a string [s] that comes from the XML
    tree: it has a character outside ASCII. *)
Fixpoint is_unicode (s : string) : bool :=
  match s with
  | EmptyString => false
  | String c r => negb (is_ascii c) || is_unicode r
  end.

(** [str.upper(s)] for an [s] that is of the kind of [whole], as a match
    group in [whole] is: the descriptor of [str] refuses a [unicode]. *)
Definition str_upper_of (whole s : string) : result string :=
  if is_unicode whole then Raise TypeError else Ok (upper s).

(** [str.upper(s)] *)
Definition str_upper (s : string) : result string :=
  str_upper_of s s.

(** [x == cell] for a cell of a frame, which is a [str]. *)
Definition eq_cell (x cell : string) : bool :=
  negb (is_unicode x) && String.eqb x cell.

(** [sub in s] *)
Fixpoint contains (sub s : string) : bool :=
  String.prefix sub s
  || match s with
     | EmptyString => false
     | String _ r => contains sub r
     end.

(** [s.split(sep, 1)] for a one-character [sep] that occurs in [s]:
    the parts before and after the first [sep]. Without an occurrence
    the whole string is the first part. *)
Fixpoint split1 (sep : ascii) (s : string) : string * string :=
  match s with
  | EmptyString => (EmptyString, EmptyString)
  | String c r =>
      if Ascii.eqb c sep then (EmptyString, r)
      else let (a, b) := split1 sep r in (String c a, b)
  end.

(** The worker of [replace]: [skip] characters of a matched [old] are
    still to be dropped. *)
Fixpoint replace_go (old new : string) (skip : nat) (s : string) : string :=
  match s with
  | EmptyString => EmptyString
  | String c r =>
      match skip with
      | S k => replace_go old new k r
      | O =>
          if String.prefix old s
          then new +:+ replace_go old new (String.length old - 1) r
          else String c (replace_go old new 0 r)
      end
  end.

(** [new] before every character and at the end: what [replace] does
    with an empty [old]. *)
Fixpoint interleave (new s : string) : string :=
  match s with
  | EmptyString => new
  | String c r => new +:+ String c (interleave new r)
  end.

(** [s.replace(old, new)]: every occurrence of [old], found from the
    left and not overlapping, becomes [new]. *)
Definition replace (s old new : string) : string :=
  match old with
  | EmptyString => interleave new s
  | String _ _ => replace_go old new 0 s
  end.

End Py.

(** ** The regular expressions *)

Module Re.

(** [\s] of a byte pattern without flags: [ \t\n\r\f\v]. *)
Definition is_space (c : ascii) : bool :=
  Py.mem_ascii c [" "; "009"; "010"; "013"; "012"; "011"]%char.

(** [\w] of a byte pattern without flags: [a-zA-Z0-9_]. *)
Definition is_word (c : ascii) : bool :=
  Py.is_lower c || Py.is_upper c || Py.is_digit c || Ascii.eqb c "_"%char.

(** The character class of [PROBLEMCHARS]: = + / & < > ; apostrophe,
    double quote (034), ? % # $ @ , . space, tab (009), CR (013) and
    LF (010). *)
Definition problem_class : list ascii :=
  ["="; "+"; "/"; "&"; "<"; ">"; ";"; "'"; "034"; "?"; "%"; "#"; "$"; "@";
   ","; "."; " "; "009"; "013"; "010"]%char.

(** [PROBLEMCHARS.search(s)] as a truth value: some character of [s]
    is in the class. *)
Fixpoint PROBLEMCHARS_search (s : string) : bool :=
  match s with
  | EmptyString => false
  | String c r => Py.mem_ascii c problem_class || PROBLEMCHARS_search r
  end.

(** The longest prefix of [\S] characters, and what follows it. *)
Fixpoint nonspace_run (s : string) : string * string :=
  match s with
  | EmptyString => (EmptyString, EmptyString)
  | String c r =>
      if is_space c then (EmptyString, s)
      else let (run, rest) := nonspace_run r in (String c run, rest)
  end.

(** [$] without MULTILINE: the end of the string, or just before a
    newline that ends the string. *)
Definition at_dollar (rest : string) : bool :=
  match rest with
  | EmptyString => true
  | String c EmptyString => Ascii.eqb c "010"%char
  | _ => false
  end.

(** [\S+\.?$] tried at the start of [s]. [\S+] is greedy and takes the
    whole run; a shorter [\S+] leaves a [\S] character (or, after
    [\.?], the same position) in front of [$], so no other split of
    the run can succeed where this one fails. *)
Definition match_here (s : string) : option string :=
  let (run, rest) := nonspace_run s in
  match run with
  | EmptyString => None
  | String _ _ => if at_dollar rest then Some run else None
  end.

(** [\b] between a character that is a word character or not
    ([prev_word]; the start of the string counts as not) and [c]. *)
Definition boundary (prev_word : bool) (c : ascii) : bool :=
  xorb prev_word (is_word c).

(** The scan of [search]: the first position, from the left, where
    [\b\S+\.?$] matches. *)
Fixpoint search_from (prev_word : bool) (s : string) : option string :=
  match s with
  | EmptyString => None
  | String c r =>
      if boundary prev_word c
      then match match_here s with
           | Some m => Some m
           | None => search_from (is_word c) r
           end
      else search_from (is_word c) r
  end.

(** [street_type_re.search(s)], giving [m.group()]. *)
Definition street_type_re_search (s : string) : option string :=
  search_from false s.

End Re.

(** ** The cross-reference frames *)

(** A row of [Cross_Reference], read from the street abbreviation file. *)
Record street_row : Type := StreetRow {
  FullName : string;
  CommonName : string;
  USPSName : string
}.

(** A row of [Cross_Reference_Cities], read from the city list file. *)
Record city_row : Type := CityRow {
  OriginalName : string;
  NewName : string
}.

Module Pd.

(** [x in column.values] *)
Definition isin (x : string) (column : list string) : bool :=
  existsb (Py.eq_cell x) column.

(** [frame.loc[frame[by] == x, col]]: the [col] cells of the rows whose
    [by] cell is [x], in row order. *)
Definition loc {R : Type} (by_ col : R -> string) (x : string)
    (frame : list R) : list string :=
  map col (List.filter (fun r => Py.eq_cell x (by_ r)) frame).

(** [series.iloc[0]] *)
Definition iloc0 (series : list string) : result string :=
  match series with
  | [] => Raise IndexError
  | v :: _ => Ok v
  end.

End Pd.

(** ** Updating street and city names *)

(** [update_name(name, CR)]. The first [str.upper] call of either branch
    is given [name] or a group matched in it, so it raises for a
    [unicode] name; past it [name] is a [str], and so is what [replace]
    makes of it with a cell, which the outer [str.upper] upper-cases. *)
Definition update_name (name : string) (CR : list street_row) : result string :=
  match Re.street_type_re_search name with
  | Some street_type =>
      let* street_type_upper := Py.str_upper_of name street_type in
      if Pd.isin street_type_upper (map CommonName CR) then
        let* new_value_cn :=
          Pd.iloc0 (Pd.loc CommonName FullName street_type_upper CR) in
        Ok (Py.upper (Py.replace name street_type_upper new_value_cn))
      else
        let* street_type_un := Py.str_upper_of name street_type in
        if Pd.isin street_type_un (map USPSName CR) then
          let* new_value_un :=
            Pd.iloc0 (Pd.loc USPSName FullName street_type_un CR) in
          Ok (Py.upper (Py.replace name street_type_upper new_value_un))
        else Py.str_upper name
  | None => Py.str_upper name
  end.

(** [update_city_name(name, CR)] *)
Definition update_city_name (name : string) (CR : list city_row) : result string :=
  let* name_upper := Py.str_upper name in
  if Pd.isin name_upper (map OriginalName CR) then
    let* new_city_name := Pd.iloc0 (Pd.loc OriginalName NewName name CR) in
    Ok (Py.replace name name new_city_name)
  else Ok name.

(** ** Secondary tags *)

Record key_value_type : Type := KeyValueType {
  kvt_key : string;
  kvt_value : string;
  kvt_type : string
}.

#[local] Set Warnings "-register-all".

(** ** Elements *)

(** An [xml.etree] element: its tag, its attributes and its children in
    document order. *)
Inductive Element : Type :=
  | Elem (tag : string) (attrib : gmap string string) (children : list Element).

Definition tag (e : Element) : string :=
  match e with Elem t _ _ => t end.

Definition attrib (e : Element) : gmap string string :=
  match e with Elem _ a _ => a end.

Definition children (e : Element) : list Element :=
  match e with Elem _ _ cs => cs end.

(** [element.iter(name)]: the element itself and everything below it,
    in document order, kept when its tag is [name]. *)
Fixpoint iter (name : string) (e : Element) : list Element :=
  match e with
  | Elem t _ cs =>
      (if String.eqb t name then [e] else []) ++ flat_map (iter name) cs
  end.

(** [d[key]] *)
Definition getitem (d : gmap string string) (key : string) : result string :=
  match d !! key with
  | Some v => Ok v
  | None => Raise (KeyError key)
  end.

Definition NODE_FIELDS : list string :=
  ["id"; "lat"; "lon"; "user"; "uid"; "version"; "changeset"; "timestamp"].

Definition WAY_FIELDS : list string :=
  ["id"; "user"; "uid"; "version"; "changeset"; "timestamp"].

(** A copy of [tag_values] as appended to [tags]. *)
Record tag_values : Type := TagValues {
  tag_id : string;
  tag_key : string;
  tag_value : string;
  tag_type : string
}.

(** A copy of [way_node_values] as appended to [way_nodes]. *)
Record way_node_values : Type := WayNodeValues {
  wn_id : string;
  wn_node_id : string;
  wn_position : nat
}.

(** The dict that [shape_element] returns. *)
Inductive shaped : Type :=
  | ShapedNode (node : gmap string string) (node_tags : list tag_values)
  | ShapedWay (way : gmap string string) (way_nodes : list way_node_values)
      (way_tags : list tag_values).

(** ** Shaping an element *)

Section Shaping.

(** The module-level frames, filled before [process_map] runs. *)
Variable Cross_Reference : list street_row.
Variable Cross_Reference_Cities : list city_row.

(** [handle_tags(key_name, value_name)] with the default
    [default_tag_type]. When [PROBLEMCHARS] matches, no branch binds
    [type_name] and the [return] raises. *)
Definition handle_tags (key_name value_name : string)
    (default_tag_type : string) : result key_value_type :=
  let value_name := Py.upper value_name in
  if negb (Re.PROBLEMCHARS_search key_name) then
    if Py.contains ":" key_name then
      let key_split := Py.split1 ":" key_name in
      let key_name := fst key_split in
      let type_name := snd key_split in
      if String.eqb type_name "street" then
        let* value_name := update_name value_name Cross_Reference in
        Ok (KeyValueType key_name value_name type_name)
      else if String.eqb type_name "city" then
        let* value_name := update_city_name value_name Cross_Reference_Cities in
        Ok (KeyValueType key_name value_name type_name)
      else Ok (KeyValueType key_name value_name type_name)
    else
      let type_name := default_tag_type in
      Ok (KeyValueType key_name value_name type_name)
  else Raise (UnboundLocalError "type_name").

(** [for field in fields: attribs[field] = element.attrib[field].upper()],
    binding the element id when the field is [id]. The state is the
    dict and the id variable. *)
Fixpoint field_loop (fields : list string) (element : Element)
    (attribs : gmap string string) (elemid : string)
    : result (gmap string string * string) :=
  match fields with
  | [] => Ok (attribs, elemid)
  | field :: rest =>
      let* v := getitem (attrib element) field in
      let attribs := <[field := Py.upper v]> attribs in
      let elemid := if String.eqb field "id" then v else elemid in
      field_loop rest element attribs elemid
  end.

(** [for element in element.iter('tag'): ...] over the elements the
    iterator gives. The state is [tags] and the variable [element],
    which the loop rebinds. *)
Fixpoint tag_loop (elems : list Element) (elemid : string)
    (element : Element) (tags : list tag_values)
    : result (Element * list tag_values) :=
  match elems with
  | [] => Ok (element, tags)
  | element :: rest =>
      let* k := getitem (attrib element) "k" in
      let* v := getitem (attrib element) "v" in
      let* kvt := handle_tags k v "regular" in
      let tag_values_c :=
        TagValues elemid (kvt_key kvt) (kvt_value kvt) (kvt_type kvt) in
      tag_loop rest elemid element (tags ++ [tag_values_c])
  end.

(** [for element in element.iter('nd'): ...]; the state is [index] and
    [way_nodes]. *)
Fixpoint nd_loop (elems : list Element) (wayid : string) (index : nat)
    (way_nodes : list way_node_values) : result (list way_node_values) :=
  match elems with
  | [] => Ok way_nodes
  | element :: rest =>
      let* ref := getitem (attrib element) "ref" in
      let way_node_values_c := WayNodeValues wayid (Py.upper ref) index in
      nd_loop rest wayid (index + 1) (way_nodes ++ [way_node_values_c])
  end.

(** [shape_element(element)]; [None] is Python's [None], returned for
    an element that is neither a node nor a way. *)
Definition shape_element (element : Element) : result (option shaped) :=
  if String.eqb (tag element) "node" then
    let* st := field_loop NODE_FIELDS element ∅ EmptyString in
    let node_attribs := fst st in
    let nodeid := snd st in
    let* st := tag_loop (iter "tag" element) nodeid element [] in
    Ok (Some (ShapedNode node_attribs (snd st)))
  else if String.eqb (tag element) "way" then
    let* st := field_loop WAY_FIELDS element ∅ EmptyString in
    let way_attribs := fst st in
    let wayid := snd st in
    let* st := tag_loop (iter "tag" element) wayid element [] in
    let element := fst st in
    let tags := snd st in
    let* way_nodes := nd_loop (iter "nd" element) wayid 0 [] in
    Ok (Some (ShapedWay way_attribs way_nodes tags))
  else Ok None.

End Shaping.

(** * Vocabulary of the statements

    Derived notions that the properties below are stated with. They are
    not part of [data.py]. *)

(** The first row of [frame] whose [by_] cell is equal to [x]. *)
Definition first_row {R : Type} (by_ : R -> string) (x : string)
    (frame : list R) : option R :=
  List.find (fun r => Py.eq_cell x (by_ r)) frame.

(** The full form that [update_name] puts in place of a token: the
    [FullName] of the first row with that [CommonName], and without such
    a row the [FullName] of the first row with that [USPSName]. *)
Definition full_form (CR : list street_row) (token : string) : option string :=
  match first_row CommonName token CR with
  | Some row => Some (FullName row)
  | None =>
      match first_row USPSName token CR with
      | Some row => Some (FullName row)
      | None => None
      end
  end.

(** Every character of [s] satisfies [p]. *)
Fixpoint string_forall (p : ascii -> bool) (s : string) : bool :=
  match s with
  | EmptyString => true
  | String c r => p c && string_forall p r
  end.

(** [s.find(sub)]: where the first occurrence of [sub] in [s] starts. *)
Fixpoint find_str (sub s : string) : option nat :=
  if String.prefix sub s then Some 0
  else match s with
       | EmptyString => None
       | String _ r => option_map S (find_str sub r)
       end.

(** [s] without a newline at its end. *)
Fixpoint chomp (s : string) : string :=
  match s with
  | EmptyString => EmptyString
  | String c EmptyString => if Ascii.eqb c "010"%char then EmptyString else s
  | String c r => String c (chomp r)
  end.

(** The longest suffix of [s] without whitespace. *)
Fixpoint trailing_run (s : string) : string :=
  match s with
  | EmptyString => EmptyString
  | String _ r =>
      if string_forall (fun c => negb (Re.is_space c)) s then s
      else trailing_run r
  end.

(** [s] from its first word character on. *)
Fixpoint from_word (s : string) : string :=
  match s with
  | EmptyString => EmptyString
  | String c r => if Re.is_word c then s else from_word r
  end.

Definition nonempty (s : string) : option string :=
  match s with
  | EmptyString => None
  | String _ _ => Some s
  end.

(** The street type token of a value: the whitespace-free token that
    ends the value (a newline at the very end apart), from its first word
    character on, when there is one. *)
Definition street_token (s : string) : option string :=
  nonempty (from_word (trailing_run (chomp s))).

(** The element that the variable [element] is bound to once the loop
    over [element.iter('tag')] has ended: the last element the iterator
    gave, or the element itself when it gave none. *)
Definition working_element (element : Element) : Element :=
  List.last (iter "tag" element) element.

(** The records that the nd loop makes for a way with id [wayid] from
    the [ref] attributes of the elements it visits: the upper-cased ref
    and the running index from 0. *)
Definition way_nodes_of (wayid : string) (refs : list string) : list way_node_values :=
  map (fun p => WayNodeValues wayid (Py.upper (fst p)) (snd p))
      (combine refs (seq 0 (length refs))).

(** The dict [record] holds, for every field of [fields], the
    upper-cased attribute of [element], and nothing else. *)
Definition uppercased_record (fields : list string) (element : Element)
    (record : gmap string string) : Prop :=
  (forall field, In field fields ->
     exists v, attrib element !! field = Some v
               /\ record !! field = Some (Py.upper v))
  /\ (forall field, ~ In field fields -> record !! field = None).

(** The node ids of [way_nodes] are, in order, the upper-cased refs of
    the nd elements that the nd loop of [element] visits. *)
Definition uppercased_refs (element : Element)
    (way_nodes : list way_node_values) : Prop :=
  exists refs,
    Forall2 (fun nd ref => attrib nd !! "ref" = Some ref)
      (iter "nd" (working_element element)) refs
    /\ map wn_node_id way_nodes = map Py.upper refs.

(** ** The street rule in the words of the specification

    The trailing whitespace-delimited token of the value is looked up;
    everything else is as in [update_name]. *)

(** The whitespace-delimited tokens of [s], as [s.split()] gives them;
    [cur] is the token being read. *)
Fixpoint spec_tokens (cur s : string) : list string :=
  match s with
  | EmptyString =>
      match cur with
      | EmptyString => []
      | String _ _ => [cur]
      end
  | String c r =>
      if Re.is_space c then
        match cur with
        | EmptyString => spec_tokens EmptyString r
        | String _ _ => cur :: spec_tokens EmptyString r
        end
      else spec_tokens (cur +:+ String c EmptyString) r
  end.

Definition spec_trailing_token (s : string) : option string :=
  List.last (map Some (spec_tokens EmptyString s)) None.

(** The normalized value of a street tag with raw value [value]. *)
Definition spec_street_value (CR : list street_row) (value : string) : string :=
  let value := Py.upper value in
  match spec_trailing_token value with
  | Some token =>
      match full_form CR (Py.upper token) with
      | Some full => Py.upper (Py.replace value (Py.upper token) full)
      | None => value
      end
  | None => value
  end.

(** ** Example inputs *)

(** A dict from its items. *)
Definition attrs (items : list (string * string)) : gmap string string :=
  list_to_map items.

(** A street frame in which the token ST is a [USPSName] in the first
    row and a [CommonName] in the second. *)
Definition example_streets : list street_row :=
  [StreetRow "STRAIGHT" "STR" "ST"; StreetRow "STREET" "ST" "ST"].

Definition example_cities : list city_row :=
  [CityRow "LAS VEGAS" "LAS VEGAS"].

Definition node_attrib (id : string) : gmap string string :=
  attrs [("id", id); ("user", "uboot"); ("uid", "26299"); ("version", "2");
         ("lat", "41.9747374"); ("lon", "-87.6920102");
         ("timestamp", "2010-07-22T16:16:51Z"); ("changeset", "5288876")].

Definition way_attrib (id : string) : gmap string string :=
  attrs [("id", id); ("user", "chicago-buildings"); ("uid", "674454");
         ("version", "1"); ("timestamp", "2013-03-13T15:58:04Z");
         ("changeset", "15353317")].

Definition tag_elem (k v : string) : Element :=
  Elem "tag" (attrs [("k", k); ("v", v)]) [].

Definition nd_elem (ref : string) : Element :=
  Elem "nd" (attrs [("ref", ref)]) [].

(** A node with a tag whose key has a space in it. *)
Definition node_opening_hours : Element :=
  Elem "node" (node_attrib "757860928")
    [tag_elem "amenity" "fast_food"; tag_elem "opening hours" "24/7"].

Definition node_without_uid : Element :=
  Elem "node" (delete "uid" (node_attrib "757860928"))
    [tag_elem "amenity" "fast_food"].

(** A node with one tag. *)
Definition node_fast_food : Element :=
  Elem "node" (node_attrib "757860928") [tag_elem "amenity" "fast_food"].

(** A node whose id has a lower-case letter. *)
Definition node_lower_id : Element :=
  Elem "node" (node_attrib "n757860928") [tag_elem "amenity" "fast_food"].

(** A closed way through the nodes 10, 20 and 10. *)
Definition way_refs : Element :=
  Elem "way" (way_attrib "209809850") [nd_elem "10"; nd_elem "20"; nd_elem "10"].

(** The same way with one tag. *)
Definition way_refs_tagged : Element :=
  Elem "way" (way_attrib "209809850")
    [nd_elem "10"; nd_elem "20"; nd_elem "10"; tag_elem "building" "yes"].

(** A way whose attributes and refs have lower-case letters. *)
Definition way_lower : Element :=
  Elem "way" (way_attrib "w209809850") [nd_elem "n10"; nd_elem "n20"].

(** * The audit functions *)

(** [is_street_name(elem)] *)
Definition is_street_name (elem : Element) : result bool :=
  let* k := getitem (attrib elem) "k" in
  Ok (String.eqb k "addr:street").

(** [CR.values]: every cell of the frame, row by row. *)
Definition frame_values (CR : list street_row) : list string :=
  flat_map (fun row => [FullName row; CommonName row; USPSName row]) CR.

(** [d[key].add(x)] on a [defaultdict(set)]: a key that is missing
    starts from the empty set. *)
Definition defaultdict_add (d : gmap string (gset string)) (key x : string)
    : gmap string (gset string) :=
  <[key := {[x]} ∪ default ∅ (d !! key)]> d.

(** [audit_street_type(street_types, street_name, CR)]. The dict is
    changed in place: the first component is the dict after the call,
    the second what the call returns, the dict or [None], or the
    exception it raises. *)
Definition audit_street_type (street_types : gmap string (gset string))
    (street_name : string) (CR : list street_row)
    : gmap string (gset string) * result (option (gmap string (gset string))) :=
  match Re.street_type_re_search street_name with
  | Some street_type =>
      match Py.str_upper_of street_name street_type with
      | Ok street_type_upper =>
          let street_types :=
            if negb (Pd.isin street_type_upper (frame_values CR))
            then defaultdict_add street_types street_type street_name
            else street_types in
          (street_types, Ok (Some street_types))
      | Raise e => (street_types, Raise e)
      end
  | None => (street_types, Ok None)
  end.

(** * Building the cross-references at the console *)

(** [raw_input(prompt)] with the lines that standard input still holds:
    the next line and the lines after it, or [None] for the [EOFError]
    at the end of the input. What is printed is not modelled. In the
    two functions below [None] is a run that an exception ends: this
    [EOFError], or the [TypeError] of [str.upper]. *)
Definition raw_input (stdin : list string) : option (string * list string) :=
  match stdin with
  | [] => None
  | line :: rest => Some (line, rest)
  end.

(** The loop of [addmappings]; the state is [addedmappings] and the
    input. *)
Fixpoint addmappings_loop (st_list : list string)
    (addedmappings : list street_row) (stdin : list string)
    : option (list street_row * list string) :=
  match st_list with
  | [] => Some (addedmappings, stdin)
  | st :: rest =>
      match Py.str_upper st with
      | Raise _ => None
      | Ok st_upper =>
          match raw_input stdin with
          | None => None
          | Some (map_, stdin) =>
              if String.eqb map_ "Y" then
                match raw_input stdin with
                | None => None
                | Some (newvalue, stdin) =>
                    addmappings_loop rest
                      (addedmappings ++ [StreetRow newvalue st_upper st_upper])
                      stdin
                end
              else addmappings_loop rest addedmappings stdin
          end
      end
  end.

(** [addmappings(st_list, CR)]: the frame it returns, which is also what
    it saves to the street file, and the input that is left. *)
Definition addmappings (st_list : list string) (CR : list street_row)
    (stdin : list string) : option (list street_row * list string) :=
  match addmappings_loop st_list [] stdin with
  | Some (addedmappings, stdin) => Some (CR ++ addedmappings, stdin)
  | None => None
  end.

(** The column labels of the city frame: what [x in frame] looks at. *)
Definition CITY_COLUMNS : list string := ["OriginalName"; "NewName"].

(** The loop of [buildcitiescrossreference] over [cities["addr:city"]];
    the state is the frame and the input. Both [str.upper(city)] calls
    of an iteration give what the first one gives. *)
Fixpoint buildcities_loop (cities : list string)
    (citiescrossreference : list city_row) (stdin : list string)
    : option (list city_row * list string) :=
  match cities with
  | [] => Some (citiescrossreference, stdin)
  | city :: rest =>
      match Py.str_upper city with
      | Raise _ => None
      | Ok city_upper =>
          if negb (Pd.isin city_upper CITY_COLUMNS) then
            match raw_input stdin with
            | None => None
            | Some (response, stdin) =>
                if String.eqb (Py.upper response) "Y" then
                  buildcities_loop rest
                    (citiescrossreference ++ [CityRow city_upper city_upper])
                    stdin
                else if negb (String.eqb response "Y") then
                  match raw_input stdin with
                  | None => None
                  | Some (answer, stdin) =>
                      let newcityname := Py.upper answer in
                      buildcities_loop rest
                        (citiescrossreference
                           ++ [CityRow city_upper newcityname])
                        stdin
                  end
                else buildcities_loop rest citiescrossreference stdin
            end
          else buildcities_loop rest citiescrossreference stdin
      end
  end.

(** [buildcitiescrossreference(cities)] with the rows [on_disk] of the
    city file: the frame it returns, the rows of the city file
    afterwards, and the input that is left. *)
Definition buildcitiescrossreference (cities : list string)
    (on_disk : list city_row) (stdin : list string)
    : option (list city_row * list city_row * list string) :=
  match buildcities_loop cities on_disk stdin with
  | Some (citiescrossreference, stdin) =>
      match raw_input stdin with
      | None => None
      | Some (write, stdin) =>
          if String.eqb (Py.upper write) "Y"
          then Some (citiescrossreference, citiescrossreference, stdin)
          else Some (citiescrossreference, on_disk, stdin)
      end
  | None => None
  end.

(** * Writing the csv files *)

(** A csv file is the list of its rows, a row the list of its cells;
    quoting and line ends are left to the csv writer. *)
Record csv_files : Type := CsvFiles {
  nodes_file : list (list string);
  nodes_tags_file : list (list string);
  ways_file : list (list string);
  way_nodes_file : list (list string);
  way_tags_file : list (list string)
}.

(** What [process_map] can end with: an exception that comes out of
    [shape_element] or of indexing its result, or the [ValueError] of a
    [DictWriter] given a dict with a key that is not a field name. *)
Inductive process_exn : Type :=
  | Raised (e : exn)
  | ValueError.

Definition NODE_TAGS_FIELDS : list string := ["id"; "key"; "value"; "type"].
Definition WAY_TAGS_FIELDS : list string := ["id"; "key"; "value"; "type"].
Definition WAY_NODES_FIELDS : list string := ["id"; "node_id"; "position"].

(** [str(n)], the cell that the csv writer makes of an int. *)
Definition str_of_nat (n : nat) : string :=
  NilEmpty.string_of_uint (Nat.to_uint n).

(** [DictWriter._dict_to_list(rowdict)]: [None] is the [ValueError] for
    a key outside [fieldnames]; a field the dict lacks gives an empty
    cell. *)
Definition dict_to_list (fieldnames : list string)
    (rowdict : gmap string string) : option (list string) :=
  if forallb (fun k => Pd.isin k fieldnames) (map fst (map_to_list rowdict))
  then Some (map (fun key => default EmptyString (rowdict !! key)) fieldnames)
  else None.

(** The row of a tag dict; its keys are the four field names. *)
Definition tag_row (t : tag_values) : list string :=
  [tag_id t; tag_key t; tag_value t; tag_type t].

(** The row of a way_nodes dict; its keys are the three field names. *)
Definition way_node_row (n : way_node_values) : list string :=
  [wn_id n; wn_node_id n; str_of_nat (wn_position n)].

(** The files after the five [writeheader()] calls. *)
Definition headers : csv_files :=
  CsvFiles [NODE_FIELDS] [NODE_TAGS_FIELDS] [WAY_FIELDS] [WAY_NODES_FIELDS]
    [WAY_TAGS_FIELDS].

Section ProcessMap.

Variable Cross_Reference : list street_row.
Variable Cross_Reference_Cities : list city_row.

(** The body of [if el:] for the dict [el] of [element]: the files
    after the writes, and the exception if one is raised. *)
Definition write_element (files : csv_files) (element : Element) (el : shaped)
    : csv_files * option process_exn :=
  if String.eqb (tag element) "node" then
    match el with
    | ShapedNode node node_tags =>
        match dict_to_list NODE_FIELDS node with
        | Some row =>
            (CsvFiles (nodes_file files ++ [row])
               (nodes_tags_file files ++ map tag_row node_tags)
               (ways_file files) (way_nodes_file files) (way_tags_file files),
             None)
        | None => (files, Some ValueError)
        end
    | ShapedWay _ _ _ => (files, Some (Raised (KeyError "node")))
    end
  else if String.eqb (tag element) "way" then
    match el with
    | ShapedWay way way_nodes way_tags =>
        match dict_to_list WAY_FIELDS way with
        | Some row =>
            (CsvFiles (nodes_file files) (nodes_tags_file files)
               (ways_file files ++ [row])
               (way_nodes_file files ++ map way_node_row way_nodes)
               (way_tags_file files ++ map tag_row way_tags),
             None)
        | None => (files, Some ValueError)
        end
    | ShapedNode _ _ => (files, Some (Raised (KeyError "way")))
    end
  else (files, None).

(** The loop of [process_map] over the elements that [get_element]
    yields, without validation. An exception ends the run; the files
    keep what was written before it. *)
Fixpoint process_loop (elements : list Element) (files : csv_files)
    : csv_files * option process_exn :=
  match elements with
  | [] => (files, None)
  | element :: rest =>
      match shape_element Cross_Reference Cross_Reference_Cities element with
      | Raise e => (files, Some (Raised e))
      | Ok None => process_loop rest files
      | Ok (Some el) =>
          match write_element files element el with
          | (files, None) => process_loop rest files
          | (files, Some e) => (files, Some e)
          end
      end
  end.

(** [process_map(file_in, validate=False)] for a file whose node and way
    elements are [elements]. *)
Definition process_map (elements : list Element) : csv_files * option process_exn :=
  process_loop elements headers.

End ProcessMap.

(** * Vocabulary of the further properties *)

(** The tag records of a shaped element. *)
Definition shaped_tags (out : shaped) : list tag_values :=
  match out with
  | ShapedNode _ tags => tags
  | ShapedWay _ _ tags => tags
  end.

(** The element has every attribute of [fields]. *)
Definition has_fields (fields : list string) (element : Element) : Prop :=
  forall field, In field fields -> is_Some (attrib element !! field).

(** [handle_tags] hands the value of a tag with this key to
    [update_name] or to [update_city_name]: the key has a colon, and
    street or city is what follows the first one. *)
Definition looked_up (key_name : string) : bool :=
  Py.contains ":" key_name
  && (String.eqb (snd (Py.split1 ":" key_name)) "street"
      || String.eqb (snd (Py.split1 ":" key_name)) "city").

(** A key without a problem character, with a value that is a [str]
    when the key is one whose value is looked up. *)
Definition clean_key_value (k v : string) : Prop :=
  Re.PROBLEMCHARS_search k = false
  /\ (looked_up k = true -> Py.is_unicode v = false).

(** A tag element with a k and a v attribute that are such a key and
    value. *)
Definition clean_tag (el : Element) : Prop :=
  exists k v,
    attrib el !! "k" = Some k /\ attrib el !! "v" = Some v
    /\ clean_key_value k v.

(** What [shape_element] needs of a node or a way to return its dict:
    the attributes of the field list, tag elements that [handle_tags]
    accepts and, for a way, a ref on every nd element that the nd loop
    visits. *)
Definition shapeable (element : Element) : Prop :=
  tag element = "node"
  /\ has_fields NODE_FIELDS element
  /\ Forall clean_tag (iter "tag" element)
  \/ tag element = "way"
     /\ has_fields WAY_FIELDS element
     /\ Forall clean_tag (iter "tag" element)
     /\ Forall (fun nd => is_Some (attrib nd !! "ref"))
          (iter "nd" (working_element element)).

(** [t] is the record that the tag loop makes from [el] for an element
    with id [elemid]. *)
Definition tag_record_of (CR : list street_row) (CRC : list city_row)
    (elemid : string) (el : Element) (t : tag_values) : Prop :=
  exists k v kvt,
    attrib el !! "k" = Some k /\ attrib el !! "v" = Some v
    /\ handle_tags CR CRC k v "regular" = Ok kvt
    /\ t = TagValues elemid (kvt_key kvt) (kvt_value kvt) (kvt_type kvt).

(** A row that [addmappings] makes for a token of [st_list]. *)
Definition added_row (st_list : list string) (row : street_row) : Prop :=
  exists st,
    In st st_list
    /\ CommonName row = Py.upper st /\ USPSName row = Py.upper st.

(** [shape_element] returns for the element, a dict or [None]. *)
Definition shapes (CR : list street_row) (CRC : list city_row)
    (element : Element) : Prop :=
  exists out, shape_element CR CRC element = Ok out.

(** The first cells of the rows below the header. *)
Definition id_cells (file : list (list string)) : list string :=
  map (hd EmptyString) (tl file).

(** The elements with tag [name]. *)
Definition with_tag (name : string) (elements : list Element) : list Element :=
  List.filter (fun e => String.eqb (tag e) name) elements.

(** The id attribute of the element, if it has one, is upper-case, as a
    number is. *)
Definition upper_id (element : Element) : Prop :=
  forall id, attrib element !! "id" = Some id -> Py.upper id = id.

(** Every row of every file has as many cells as the file has field
    names, and the first row of every file is its header. *)
Definition well_formed_files (files : csv_files) : Prop :=
  (hd_error (nodes_file files) = Some NODE_FIELDS
   /\ Forall (fun row => length row = 8) (nodes_file files))
  /\ (hd_error (nodes_tags_file files) = Some NODE_TAGS_FIELDS
      /\ Forall (fun row => length row = 4) (nodes_tags_file files))
  /\ (hd_error (ways_file files) = Some WAY_FIELDS
      /\ Forall (fun row => length row = 6) (ways_file files))
  /\ (hd_error (way_nodes_file files) = Some WAY_NODES_FIELDS
      /\ Forall (fun row => length row = 3) (way_nodes_file files))
  /\ (hd_error (way_tags_file files) = Some WAY_TAGS_FIELDS
      /\ Forall (fun row => length row = 4) (way_tags_file files)).

(** Every id in a tag file or in the way_nodes file is an id of the
    file of its elements. *)
Definition ids_resolve (files : csv_files) : Prop :=
  incl (id_cells (nodes_tags_file files)) (id_cells (nodes_file files))
  /\ incl (id_cells (way_tags_file files)) (id_cells (ways_file files))
  /\ incl (id_cells (way_nodes_file files)) (id_cells (ways_file files)).

(** * Properties *)

#[local] Arguments String.append !_ _ / : simpl nomatch.

(** ** Upper-casing *)

Lemma upper_ascii_idem c : Py.upper_ascii (Py.upper_ascii c) = Py.upper_ascii c.
Proof. destruct c as [[] [] [] [] [] [] [] []]; reflexivity. Qed.

Lemma upper_idem s : Py.upper (Py.upper s) = Py.upper s.
Proof.
  induction s as [|c s IH]; simpl; [reflexivity|].
  now rewrite upper_ascii_idem, IH.
Qed.

Lemma is_ascii_upper c : Py.is_ascii (Py.upper_ascii c) = Py.is_ascii c.
Proof. destruct c as [[] [] [] [] [] [] [] []]; reflexivity. Qed.

(** [.upper()] keeps the kind of a string. *)
Lemma is_unicode_upper s : Py.is_unicode (Py.upper s) = Py.is_unicode s.
Proof.
  induction s as [|c s IH]; simpl; [reflexivity|].
  now rewrite is_ascii_upper, IH.
Qed.

Lemma str_upper_of_str whole s :
  Py.is_unicode whole = false -> Py.str_upper_of whole s = Ok (Py.upper s).
Proof. unfold Py.str_upper_of. now intros ->. Qed.

Lemma str_upper_str s :
  Py.is_unicode s = false -> Py.str_upper s = Ok (Py.upper s).
Proof. apply str_upper_of_str. Qed.

Lemma str_upper_of_unicode whole s :
  Py.is_unicode whole = true -> Py.str_upper_of whole s = Raise TypeError.
Proof. unfold Py.str_upper_of. now intros ->. Qed.

Lemma eq_cell_true x cell :
  Py.eq_cell x cell = true <-> Py.is_unicode x = false /\ x = cell.
Proof.
  unfold Py.eq_cell. rewrite andb_true_iff, negb_true_iff, String.eqb_eq.
  reflexivity.
Qed.

Lemma eq_cell_str x cell :
  Py.is_unicode x = false -> Py.eq_cell x cell = String.eqb x cell.
Proof. unfold Py.eq_cell. now intros ->. Qed.

(** ** Strings *)

Lemma prefix_refl_app (s t : string) : String.prefix s (s +:+ t) = true.
Proof.
  induction s as [|c s IH]; simpl; [now destruct t|].
  destruct (ascii_dec c c) as [_|Hne]; [exact IH | now destruct Hne].
Qed.

(** ** The frames *)

Lemma isin_first_row {R : Type} (by_ : R -> string) x (frame : list R) :
  Pd.isin x (map by_ frame) = true <-> exists r, first_row by_ x frame = Some r.
Proof.
  unfold Pd.isin, first_row.
  induction frame as [|r frame IH]; simpl.
  - split; [discriminate | intros [r Hr]; discriminate].
  - destruct (Py.eq_cell x (by_ r)); simpl.
    + split; [intros _; now exists r | reflexivity].
    + exact IH.
Qed.

(** A [unicode] is in no column. *)
Lemma isin_str x (column : list string) :
  Pd.isin x column = true -> Py.is_unicode x = false.
Proof.
  unfold Pd.isin. intros (cell & _ & H)%existsb_exists.
  now apply eq_cell_true in H.
Qed.

Lemma first_row_str {R : Type} (by_ : R -> string) x (frame : list R) r :
  first_row by_ x frame = Some r -> Py.is_unicode x = false.
Proof.
  intros H. apply (isin_str x (map by_ frame)), isin_first_row. now exists r.
Qed.

Lemma isin_false_first_row {R : Type} (by_ : R -> string) x (frame : list R) :
  Pd.isin x (map by_ frame) = false <-> first_row by_ x frame = None.
Proof.
  destruct (Pd.isin x (map by_ frame)) eqn:E.
  - apply isin_first_row in E as [r Hr]. rewrite Hr. split; discriminate.
  - split; [intros _ | reflexivity].
    destruct (first_row by_ x frame) as [r|] eqn:Hr; [|reflexivity].
    assert (Pd.isin x (map by_ frame) = true) as E'
      by (apply isin_first_row; now exists r).
    congruence.
Qed.

Lemma iloc0_loc {R : Type} (by_ col : R -> string) x (frame : list R) :
  Pd.iloc0 (Pd.loc by_ col x frame) =
  match first_row by_ x frame with
  | Some r => Ok (col r)
  | None => Raise IndexError
  end.
Proof.
  unfold Pd.loc, first_row.
  induction frame as [|r frame IH]; simpl; [reflexivity|].
  destruct (Py.eq_cell x (by_ r)); simpl; [reflexivity | exact IH].
Qed.

Lemma update_name_unicode name CR :
  Py.is_unicode name = true -> update_name name CR = Raise TypeError.
Proof.
  intros H. unfold update_name, Py.str_upper.
  destruct (Re.street_type_re_search name);
    now rewrite !(str_upper_of_unicode name) by exact H.
Qed.

Lemma update_name_full_form name CR :
  Py.is_unicode name = false ->
  update_name name CR =
  Ok match Re.street_type_re_search name with
     | Some street_type =>
         match full_form CR (Py.upper street_type) with
         | Some full =>
             Py.upper (Py.replace name (Py.upper street_type) full)
         | None => Py.upper name
         end
     | None => Py.upper name
     end.
Proof.
  intros Hstr. unfold update_name, full_form, Py.str_upper.
  destruct (Re.street_type_re_search name) as [street_type|];
    rewrite !(str_upper_of_str name) by exact Hstr; [|reflexivity].
  cbn [bind]. rewrite !iloc0_loc.
  destruct (first_row CommonName (Py.upper street_type) CR) as [row|] eqn:Hcn.
  - assert (Pd.isin (Py.upper street_type) (map CommonName CR) = true) as ->
      by (apply isin_first_row; now exists row).
    reflexivity.
  - apply isin_false_first_row in Hcn as ->.
    destruct (first_row USPSName (Py.upper street_type) CR) as [row|] eqn:Hun.
    + assert (Pd.isin (Py.upper street_type) (map USPSName CR) = true) as ->
        by (apply isin_first_row; now exists row).
      reflexivity.
    + apply isin_false_first_row in Hun as ->. reflexivity.
Qed.

(** ** The street type pattern *)

Lemma is_space_not_word c : Re.is_space c = true -> Re.is_word c = false.
Proof. destruct c as [[] [] [] [] [] [] [] []]; (reflexivity || discriminate). Qed.

Lemma nonspace_run_spec s :
  s = fst (Re.nonspace_run s) +:+ snd (Re.nonspace_run s)
  /\ string_forall (fun c => negb (Re.is_space c)) (fst (Re.nonspace_run s)) = true.
Proof.
  induction s as [|c s [IH1 IH2]]; simpl; [now split|].
  destruct (Re.is_space c) eqn:Hc; simpl; [now split|].
  destruct (Re.nonspace_run s) as [run rest]. simpl in *.
  rewrite Hc, IH2. split; [now f_equal | reflexivity].
Qed.

Lemma at_dollar_cases rest :
  Re.at_dollar rest = true ->
  rest = EmptyString \/ rest = String "010"%char EmptyString.
Proof.
  destruct rest as [|c [|d rest]]; simpl; try discriminate; [now left|].
  intros H. apply Ascii.eqb_eq in H as ->. now right.
Qed.

Lemma chomp_nonspace run :
  string_forall (fun c => negb (Re.is_space c)) run = true -> chomp run = run.
Proof.
  induction run as [|c run IH]; [reflexivity|].
  cbn [string_forall]. intros [Hc Hrun]%andb_prop.
  destruct run as [|d run].
  - cbn [chomp]. destruct (Ascii.eqb c "010"%char) eqn:E; [|reflexivity].
    apply Ascii.eqb_eq in E as ->. discriminate.
  - change (chomp (String c (String d run)))
      with (String c (chomp (String d run))).
    now rewrite IH.
Qed.

Lemma chomp_newline run : chomp (run +:+ String "010"%char EmptyString) = run.
Proof.
  induction run as [|c run IH]; [reflexivity|].
  change (chomp (String c (run +:+ String "010"%char EmptyString)) = String c run).
  destruct run as [|d run]; [reflexivity|].
  change (String c (chomp (String d run +:+ String "010"%char EmptyString))
          = String c (String d run)).
  now rewrite IH.
Qed.

Lemma trailing_run_nonspace run :
  string_forall (fun c => negb (Re.is_space c)) run = true -> trailing_run run = run.
Proof.
  destruct run as [|c run]; [reflexivity|].
  intros H. cbn [trailing_run]. now rewrite H.
Qed.

(** The token ends the string: it is the run from its first word
    character on. *)
Lemma street_token_at_dollar s :
  Re.at_dollar (snd (Re.nonspace_run s)) = true ->
  street_token s = nonempty (from_word (fst (Re.nonspace_run s))).
Proof.
  intros Hd. destruct (nonspace_run_spec s) as [Hs Hrun].
  unfold street_token. rewrite Hs at 1.
  destruct (at_dollar_cases _ Hd) as [->| ->].
  - replace (fst (Re.nonspace_run s) +:+ EmptyString) with (fst (Re.nonspace_run s))
      by (clear; induction (fst (Re.nonspace_run s)); simpl; congruence).
    now rewrite chomp_nonspace, trailing_run_nonspace.
  - now rewrite chomp_newline, trailing_run_nonspace.
Qed.

Lemma street_token_space c s :
  Re.is_space c = true -> street_token (String c s) = street_token s.
Proof.
  intros Hc. unfold street_token.
  destruct s as [|d s].
  - cbn [chomp]. destruct (Ascii.eqb c "010"%char); [reflexivity|].
    cbn [trailing_run string_forall]. now rewrite Hc.
  - change (chomp (String c (String d s))) with (String c (chomp (String d s))).
    cbn [trailing_run string_forall]. now rewrite Hc.
Qed.

(** Whitespace that is not a newline at the very end stays in [chomp]. *)
Lemma chomp_keeps_space s :
  Re.at_dollar (snd (Re.nonspace_run s)) = false ->
  string_forall (fun c => negb (Re.is_space c)) (chomp s) = false.
Proof.
  induction s as [|c s IH]; [discriminate|].
  cbn [Re.nonspace_run]. destruct (Re.is_space c) eqn:Hc.
  - cbn [snd]. intros Hd. destruct s as [|d s].
    + cbn [Re.at_dollar] in Hd. cbn [chomp]. rewrite Hd.
      cbn [string_forall]. now rewrite Hc.
    + change (chomp (String c (String d s))) with (String c (chomp (String d s))).
      cbn [string_forall]. now rewrite Hc.
  - destruct (Re.nonspace_run s) as [run rest] eqn:Hrun. cbn [snd] in *.
    intros Hd. specialize (IH Hd).
    destruct s as [|d s]; [discriminate|].
    change (chomp (String c (String d s))) with (String c (chomp (String d s))).
    cbn [string_forall]. rewrite IH. apply andb_false_r.
Qed.

(** The token does not end the string: the street type token lies
    behind it. *)
Lemma street_token_skip c s :
  Re.is_space c = false ->
  Re.at_dollar (snd (Re.nonspace_run s)) = false ->
  street_token (String c s) = street_token s.
Proof.
  intros Hc Hd. unfold street_token.
  destruct s as [|d s]; [discriminate|].
  change (chomp (String c (String d s))) with (String c (chomp (String d s))).
  cbn [trailing_run string_forall].
  now rewrite (chomp_keeps_space _ Hd), andb_false_r.
Qed.

Lemma nonspace_run_cons c s :
  Re.is_space c = false ->
  Re.nonspace_run (String c s) =
  (String c (fst (Re.nonspace_run s)), snd (Re.nonspace_run s)).
Proof.
  intros Hc. cbn [Re.nonspace_run]. rewrite Hc.
  now destruct (Re.nonspace_run s).
Qed.

(** Behind a token that does not end the string, the scan goes on as
    from a fresh start, whatever the character before was. *)
Lemma search_from_not_at_dollar prev_word s :
  Re.at_dollar (snd (Re.nonspace_run s)) = false ->
  Re.search_from prev_word s = Re.search_from false s.
Proof.
  revert prev_word. induction s as [|c s IH]; intros prev_word; [reflexivity|].
  destruct (Re.is_space c) eqn:Hc.
  - intros _. cbn [Re.search_from]. unfold Re.match_here.
    cbn [Re.nonspace_run]. rewrite Hc.
    now destruct (Re.boundary prev_word c), (Re.boundary false c).
  - rewrite nonspace_run_cons by exact Hc. cbn [snd]. intros Hd.
    cbn [Re.search_from]. unfold Re.match_here.
    rewrite nonspace_run_cons by exact Hc. rewrite Hd.
    now destruct (Re.boundary prev_word c), (Re.boundary false c).
Qed.

(** [street_type_re] finds the street type token, and nothing when there
    is none. *)
Theorem street_type_re_search_street_token s :
  Re.street_type_re_search s = street_token s.
Proof.
  unfold Re.street_type_re_search.
  induction s as [|c s IH]; [reflexivity|].
  cbn [Re.search_from]. unfold Re.boundary. cbn [xorb].
  destruct (Re.is_space c) eqn:Hc.
  - rewrite (is_space_not_word c Hc), IH. symmetry. now apply street_token_space.
  - unfold Re.match_here. rewrite nonspace_run_cons by exact Hc.
    destruct (Re.at_dollar (snd (Re.nonspace_run s))) eqn:Hd.
    + rewrite street_token_at_dollar
        by (rewrite nonspace_run_cons by exact Hc; exact Hd).
      rewrite nonspace_run_cons by exact Hc. cbn [fst from_word].
      destruct (Re.is_word c) eqn:Hw; [reflexivity|].
      rewrite IH. now apply street_token_at_dollar.
    + rewrite street_token_skip by assumption.
      destruct (Re.is_word c); [|exact IH].
      rewrite search_from_not_at_dollar by exact Hd. exact IH.
Qed.

(** ** [str.replace] *)

Lemma replace_go_skip old new o b :
  Py.replace_go old new (String.length o) (o +:+ b) = Py.replace_go old new 0 b.
Proof.
  induction o as [|c o IH]; simpl; [reflexivity | exact IH].
Qed.

Lemma replace_go_at old new b :
  old <> EmptyString ->
  Py.replace_go old new 0 (old +:+ b) = new +:+ Py.replace_go old new 0 b.
Proof.
  destruct old as [|c o]; [congruence|]. intros _.
  change (String c o +:+ b) with (String c (o +:+ b)).
  cbn [Py.replace_go].
  change (String c (o +:+ b)) with (String c o +:+ b).
  rewrite prefix_refl_app. cbn [String.length].
  rewrite Nat.sub_succ, Nat.sub_0_r.
  now rewrite replace_go_skip.
Qed.

(** The first occurrence is replaced and the rest of the string is
    treated in the same way. *)
Lemma replace_go_first old new a b :
  old <> EmptyString ->
  find_str old (a +:+ old +:+ b) = Some (String.length a) ->
  Py.replace_go old new 0 (a +:+ old +:+ b) =
  a +:+ new +:+ Py.replace_go old new 0 b.
Proof.
  intros Hold. induction a as [|c a IH]; intros Hfind.
  - change (EmptyString +:+ old +:+ b) with (old +:+ b).
    change (EmptyString +:+ new +:+ Py.replace_go old new 0 b)
      with (new +:+ Py.replace_go old new 0 b).
    now apply replace_go_at.
  - change (String c a +:+ old +:+ b) with (String c (a +:+ old +:+ b)) in *.
    cbn [find_str String.length] in Hfind. cbn [Py.replace_go].
    destruct (String.prefix old (String c (a +:+ old +:+ b))); [discriminate|].
    destruct (find_str old (a +:+ old +:+ b)) as [n|]; [|discriminate].
    simpl in Hfind. injection Hfind as ->.
    now rewrite IH.
Qed.

Lemma replace_first s old new a b :
  old <> EmptyString ->
  s = a +:+ old +:+ b ->
  find_str old s = Some (String.length a) ->
  Py.replace s old new = a +:+ new +:+ Py.replace b old new.
Proof.
  intros Hold -> Hfind. unfold Py.replace.
  destruct old as [|c o]; [congruence|].
  now apply replace_go_first.
Qed.

(** Without an occurrence nothing changes. *)
Lemma replace_absent s old new :
  find_str old s = None -> Py.replace s old new = s.
Proof.
  intros Hfind. unfold Py.replace.
  destruct old as [|c o]; [now destruct s|].
  induction s as [|d s IH]; [reflexivity|].
  cbn [find_str] in Hfind. cbn [Py.replace_go].
  destruct (String.prefix (String c o) (String d s)); [discriminate|].
  destruct (find_str (String c o) s); [discriminate|].
  now rewrite IH.
Qed.

(** ** [handle_tags] *)

Section HandleTags.

Variable Cross_Reference : list street_row.
Variable Cross_Reference_Cities : list city_row.

Lemma handle_tags_problem key_name value_name default_tag_type :
  Re.PROBLEMCHARS_search key_name = true ->
  handle_tags Cross_Reference Cross_Reference_Cities
    key_name value_name default_tag_type =
  Raise (UnboundLocalError "type_name").
Proof. intros H. unfold handle_tags. now rewrite H. Qed.

Lemma handle_tags_plain key_name value_name default_tag_type :
  Re.PROBLEMCHARS_search key_name = false ->
  Py.contains ":" key_name = false ->
  handle_tags Cross_Reference Cross_Reference_Cities
    key_name value_name default_tag_type =
  Ok (KeyValueType key_name (Py.upper value_name) default_tag_type).
Proof. intros H1 H2. unfold handle_tags. now rewrite H1, H2. Qed.

Lemma handle_tags_street key_name value_name default_tag_type :
  Re.PROBLEMCHARS_search key_name = false ->
  Py.contains ":" key_name = true ->
  snd (Py.split1 ":" key_name) = "street" ->
  handle_tags Cross_Reference Cross_Reference_Cities
    key_name value_name default_tag_type =
  let* value := update_name (Py.upper value_name) Cross_Reference in
  Ok (KeyValueType (fst (Py.split1 ":" key_name)) value "street").
Proof.
  intros H1 H2 H3. unfold handle_tags. now rewrite H1, H2, H3.
Qed.

Lemma handle_tags_city key_name value_name default_tag_type :
  Re.PROBLEMCHARS_search key_name = false ->
  Py.contains ":" key_name = true ->
  snd (Py.split1 ":" key_name) = "city" ->
  handle_tags Cross_Reference Cross_Reference_Cities
    key_name value_name default_tag_type =
  let* value := update_city_name (Py.upper value_name) Cross_Reference_Cities in
  Ok (KeyValueType (fst (Py.split1 ":" key_name)) value "city").
Proof.
  intros H1 H2 H3. unfold handle_tags. now rewrite H1, H2, H3.
Qed.

End HandleTags.

(** ** Splitting the key *)

Lemma split1_first sep a b :
  string_forall (fun c => negb (Ascii.eqb c sep)) a = true ->
  Py.split1 sep (a +:+ String sep b) = (a, b).
Proof.
  induction a as [|c a IH]; simpl.
  - intros _. now rewrite Ascii.eqb_refl.
  - intros [Hc Ha]%andb_prop. apply negb_true_iff in Hc.
    now rewrite Hc, IH.
Qed.

Lemma contains_sep sep a b :
  Py.contains (String sep EmptyString) (a +:+ String sep b) = true.
Proof.
  induction a as [|c a IH]; simpl.
  - destruct (ascii_dec sep sep) as [_|Hne]; [now destruct b | now destruct Hne].
  - rewrite IH. apply orb_true_r.
Qed.

Lemma update_city_name_unicode name CRC :
  Py.is_unicode name = true -> update_city_name name CRC = Raise TypeError.
Proof.
  intros H. unfold update_city_name, Py.str_upper.
  now rewrite str_upper_of_unicode.
Qed.

Lemma update_city_name_str name CRC :
  Py.is_unicode name = false ->
  update_city_name name CRC =
  if Pd.isin (Py.upper name) (map OriginalName CRC) then
    match first_row OriginalName name CRC with
    | Some row => Ok (Py.replace name name (NewName row))
    | None => Raise IndexError
    end
  else Ok name.
Proof.
  intros H. unfold update_city_name. rewrite str_upper_str by exact H.
  cbn [bind]. rewrite iloc0_loc.
  destruct (Pd.isin (Py.upper name) (map OriginalName CRC)); [|reflexivity].
  now destruct (first_row OriginalName name CRC).
Qed.

Lemma update_city_name_upper value CRC :
  Py.is_unicode value = false ->
  exists new_city_name, update_city_name (Py.upper value) CRC = Ok new_city_name.
Proof.
  intros H. rewrite update_city_name_str by now rewrite is_unicode_upper.
  rewrite upper_idem.
  destruct (Pd.isin (Py.upper value) (map OriginalName CRC)) eqn:E.
  - apply isin_first_row in E as [r ->]. eauto.
  - eauto.
Qed.

(** Whatever follows the first colon ends up in the [type] field and
    what precedes it in the [key] field. *)
Lemma handle_tags_first_colon CR CRC a b value r :
  string_forall (fun c => negb (Ascii.eqb c ":")) a = true ->
  Re.PROBLEMCHARS_search (a +:+ String ":" b) = false ->
  handle_tags CR CRC (a +:+ String ":" b) value "regular" = Ok r ->
  kvt_key r = a /\ kvt_type r = b.
Proof.
  intros Ha Hp. unfold handle_tags.
  rewrite Hp, contains_sep, split1_first by exact Ha. simpl.
  destruct (String.eqb b "street").
  - destruct (update_name (Py.upper value) CR); simpl; [|discriminate].
    now intros [= <-].
  - destruct (String.eqb b "city"); [|now intros [= <-]].
    destruct (update_city_name (Py.upper value) CRC); simpl; [|discriminate].
    now intros [= <-].
Qed.

(** C1: for the raw key addr:street:name the code splits at the first
    colon only, but binds the part before it to the key and the part
    after it to the type: the record has key addr and type street:name,
    where the claim (and the module docstring) want type addr and key
    street:name. *)
Theorem handle_tags_addr_street_name CR CRC :
  handle_tags CR CRC "addr:street:name" "Lincoln" "regular" =
  Ok (KeyValueType "addr" "LINCOLN" "street:name").
Proof. reflexivity. Qed.

(** ** Street names *)

Lemma match_here_nonempty s m : Re.match_here s = Some m -> m <> EmptyString.
Proof.
  unfold Re.match_here. destruct (Re.nonspace_run s) as [run rest].
  destruct run; [discriminate|].
  destruct (Re.at_dollar rest); [|discriminate].
  intros [= <-]. discriminate.
Qed.

Lemma search_from_nonempty prev_word s m :
  Re.search_from prev_word s = Some m -> m <> EmptyString.
Proof.
  revert prev_word. induction s as [|c s IH]; intros prev_word; [discriminate|].
  cbn [Re.search_from].
  destruct (Re.boundary prev_word c); [|apply IH].
  destruct (Re.match_here (String c s)) as [m'|] eqn:Hm; [|apply IH].
  intros [= <-]. eapply match_here_nonempty, Hm.
Qed.

Lemma upper_nonempty s : s <> EmptyString -> Py.upper s <> EmptyString.
Proof. destruct s; [congruence | discriminate]. Qed.

(** C10: when the token that [street_type_re] finds in the name, as
    [str.upper] returns it at the head of [update_name], has a full form
    in the frame, [update_name] replaces that upper-cased token wherever
    it occurs in the name: the first occurrence, which may lie in an
    earlier word, becomes the full form, and so does every occurrence in
    the rest of the name. *)
Theorem update_name_replaces_every_occurrence CR name street_type
    street_type_upper full a b :
  Re.street_type_re_search name = Some street_type ->
  Py.str_upper_of name street_type = Ok street_type_upper ->
  full_form CR street_type_upper = Some full ->
  name = a +:+ street_type_upper +:+ b ->
  find_str street_type_upper name = Some (String.length a) ->
  update_name name CR =
  Ok (Py.upper (a +:+ full +:+ Py.replace b street_type_upper full)).
Proof.
  intros Hsearch Hupper Hfull Hname Hfind.
  unfold Py.str_upper_of in Hupper.
  destruct (Py.is_unicode name) eqn:Hstr; [discriminate|].
  injection Hupper as <-.
  rewrite update_name_full_form, Hsearch, Hfull by exact Hstr.
  rewrite (replace_first name (Py.upper street_type) full a b); auto.
  apply upper_nonempty. eapply search_from_nonempty, Hsearch.
Qed.

Lemma update_name_replaces_every_occurrence_witness :
  update_name "WEST ST" [StreetRow "STREET" "ST" "ST"] = Ok "WESTREET STREET".
Proof.
  exact (update_name_replaces_every_occurrence
           [StreetRow "STREET" "ST" "ST"] "WEST ST" "ST" "ST" "STREET" "WE" " ST"
           eq_refl eq_refl eq_refl eq_refl eq_refl).
Defined.

(** For a [unicode] name no token is upper-cased and none is looked up:
    in CAÑON ST the pattern finds ST, which the frame maps to STREET, but
    the group matched in a [unicode] is a [unicode], and the [str.upper]
    call at the head of [update_name] raises [TypeError]. [handle_tags]
    ends with that error for the street tag with the value Cañon St. *)
Example update_name_unicode_not_substituted :
  Re.street_type_re_search "CAÑON ST" = Some "ST"
  /\ full_form [StreetRow "STREET" "ST" "ST"] "ST" = Some "STREET"
  /\ update_name "CAÑON ST" [StreetRow "STREET" "ST" "ST"] = Raise TypeError
  /\ handle_tags [StreetRow "STREET" "ST" "ST"] [] "addr:street" "Cañon St"
       "regular" = Raise TypeError.
Proof. repeat split. Qed.

(** Every street tag with a value outside ASCII ends in the TypeError of
    [str.upper], whatever the frame holds. *)
Lemma handle_tags_street_unicode CR CRC key_name value :
  Re.PROBLEMCHARS_search key_name = false ->
  Py.contains ":" key_name = true ->
  snd (Py.split1 ":" key_name) = "street" ->
  Py.is_unicode value = true ->
  handle_tags CR CRC key_name value "regular" = Raise TypeError.
Proof.
  intros Hp Hcolon Hstreet Huni.
  rewrite handle_tags_street by assumption.
  now rewrite update_name_unicode by now rewrite is_unicode_upper.
Qed.

(** C5 (as amended): for a tag with a clean key and a [str] value a
    record is returned, and when its type is street its value is this:
    the street type token of the upper-cased value (the whitespace-free
    token that ends it, from its first word character on) is looked up,
    upper-cased, in the CommonName column first and in the USPSName
    column only on a miss there; on a hit the value with the first
    matching row's FullName in place of the token is returned, and the
    upper-cased value when both columns miss or there is no token. *)
Theorem handle_tags_street_value CR CRC key_name value :
  Re.PROBLEMCHARS_search key_name = false ->
  Py.is_unicode value = false ->
  exists r,
    handle_tags CR CRC key_name value "regular" = Ok r
    /\ (kvt_type r = "street" ->
        kvt_value r =
        match street_token (Py.upper value) with
        | Some token =>
            match first_row CommonName (Py.upper token) CR with
            | Some row =>
                Py.upper
                  (Py.replace (Py.upper value) (Py.upper token) (FullName row))
            | None =>
                match first_row USPSName (Py.upper token) CR with
                | Some row =>
                    Py.upper
                      (Py.replace (Py.upper value) (Py.upper token) (FullName row))
                | None => Py.upper value
                end
            end
        | None => Py.upper value
        end).
Proof.
  intros Hp Hstr.
  assert (Py.is_unicode (Py.upper value) = false) as Hstr'
    by now rewrite is_unicode_upper.
  unfold handle_tags. rewrite Hp. cbn [negb].
  destruct (Py.contains ":" key_name);
    [|eexists; split; [reflexivity | discriminate]].
  cbv zeta.
  destruct (String.eqb (snd (Py.split1 ":" key_name)) "street") eqn:Hstreet.
  - rewrite update_name_full_form by exact Hstr'.
    rewrite street_type_re_search_street_token.
    eexists. split; [reflexivity|]. intros _. cbn [kvt_value].
    rewrite upper_idem. unfold full_form.
    destruct (street_token (Py.upper value)) as [token|]; [|reflexivity].
    destruct (first_row CommonName (Py.upper token) CR); [reflexivity|].
    now destruct (first_row USPSName (Py.upper token) CR).
  - apply String.eqb_neq in Hstreet.
    destruct (String.eqb (snd (Py.split1 ":" key_name)) "city").
    + destruct (update_city_name_upper value CRC Hstr) as [x ->].
      eexists. split; [reflexivity|]. intros H. now destruct Hstreet.
    + eexists. split; [reflexivity|]. intros H. now destruct Hstreet.
Qed.

Lemma handle_tags_street_value_witness :
  exists r,
    handle_tags example_streets example_cities "addr:street" "Lincoln St" "regular"
      = Ok r
    /\ kvt_type r = "street"
    /\ kvt_value r = "LINCOLN STREET".
Proof.
  destruct (handle_tags_street_value example_streets example_cities
              "addr:street" "Lincoln St" eq_refl eq_refl) as [r [Hr Hvalue]].
  exists r. split; [exact Hr|].
  assert (kvt_type r = "street") as Htype
    by (cbv in Hr; injection Hr as <-; reflexivity).
  split; [exact Htype | exact (Hvalue Htype)].
Defined.

(** C5 (as stated) fails: with ST mapped to STREET, the trailing
    whitespace-delimited token of the value Main (St is (ST, which the
    frame does not hold, so the rule as worded leaves MAIN (ST; the code
    looks up ST, the match of [street_type_re], and returns
    MAIN (STREET. *)
Lemma street_trailing_token_counterexample :
  exists r,
    handle_tags [StreetRow "STREET" "ST" "ST"] [] "addr:street" "Main (St" "regular"
      = Ok r
    /\ kvt_type r = "street"
    /\ kvt_value r = "MAIN (STREET"
    /\ spec_street_value [StreetRow "STREET" "ST" "ST"] "Main (St" = "MAIN (ST"
    /\ kvt_value r <> spec_street_value [StreetRow "STREET" "ST" "ST"] "Main (St".
Proof.
  eexists. split; [reflexivity|]. repeat split. discriminate.
Qed.

(** A value that ends in whitespace has a trailing token but no match of
    [street_type_re]: it is upper-cased and nothing else. *)
Example street_trailing_space :
  handle_tags [StreetRow "STREET" "ST" "ST"] [] "addr:street" "Main St " "regular"
    = Ok (KeyValueType "addr" "MAIN ST " "street")
  /\ spec_trailing_token "MAIN ST " = Some "ST".
Proof. split; reflexivity. Qed.

(** A token that only the USPSName column holds is replaced as well. *)
Example street_usps_name :
  handle_tags [StreetRow "AVENUE" "AV" "AVE"] [] "addr:street" "5th Ave" "regular"
    = Ok (KeyValueType "addr" "5TH AVENUE" "street").
Proof. reflexivity. Qed.

(** ** City names *)

(** X27: for a tag whose key has city after its first colon and whose
    value is a [str], when the upper-cased value is not in the
    OriginalName column, the record is returned (nothing is raised) and
    its value is the upper-cased value. *)
Theorem handle_tags_city_miss CR CRC key_name value :
  Py.is_unicode value = false ->
  Re.PROBLEMCHARS_search key_name = false ->
  Py.contains ":" key_name = true ->
  snd (Py.split1 ":" key_name) = "city" ->
  Pd.isin (Py.upper value) (map OriginalName CRC) = false ->
  handle_tags CR CRC key_name value "regular" =
  Ok (KeyValueType (fst (Py.split1 ":" key_name)) (Py.upper value) "city").
Proof.
  intros Hstr Hp Hcolon Hcity Hmiss.
  rewrite handle_tags_city by assumption.
  rewrite update_city_name_str by now rewrite is_unicode_upper.
  now rewrite upper_idem, Hmiss.
Qed.

Lemma handle_tags_city_miss_witness :
  handle_tags example_streets example_cities "addr:city" "Vegas" "regular" =
  Ok (KeyValueType "addr" "VEGAS" "city").
Proof.
  exact (handle_tags_city_miss example_streets example_cities
           "addr:city" "Vegas" eq_refl eq_refl eq_refl eq_refl eq_refl).
Defined.

(** A value with a character outside ASCII is no cell of a column. *)
Lemma isin_unicode x (column : list string) :
  Py.is_unicode x = true -> Pd.isin x column = false.
Proof.
  intros H. destruct (Pd.isin x column) eqn:E; [|reflexivity].
  apply isin_str in E. congruence.
Qed.

(** Every city tag with a value outside ASCII ends in the TypeError of
    [str.upper], whatever the frame holds. *)
Lemma handle_tags_city_unicode CR CRC key_name value :
  Re.PROBLEMCHARS_search key_name = false ->
  Py.contains ":" key_name = true ->
  snd (Py.split1 ":" key_name) = "city" ->
  Py.is_unicode value = true ->
  handle_tags CR CRC key_name value "regular" = Raise TypeError.
Proof.
  intros Hp Hcolon Hcity Huni.
  rewrite handle_tags_city by assumption.
  now rewrite update_city_name_unicode by now rewrite is_unicode_upper.
Qed.

(** C6: the city tag with the value Cañon City, which no row of the city
    frame holds, is not given its upper-cased value: the value is a
    [unicode], [handle_tags] upper-cases it with the method, and the
    [str.upper] call of [update_city_name] raises [TypeError]. The value
    is in no OriginalName column, so the claim wants the record with the
    upper-cased value. *)
Theorem handle_tags_city_miss_raises CR CRC :
  Pd.isin (Py.upper "Cañon City") (map OriginalName CRC) = false
  /\ handle_tags CR CRC "addr:city" "Cañon City" "regular" = Raise TypeError.
Proof. split; [now apply isin_unicode | reflexivity]. Qed.

(** ** Regular tags *)

(** C7: for a key without problem characters and without a colon, the
    record has type regular and the upper-cased value, and handling its
    value again gives the same record: the normalization is idempotent. *)
Theorem handle_tags_regular_idempotent CR CRC key_name value :
  Re.PROBLEMCHARS_search key_name = false ->
  Py.contains ":" key_name = false ->
  exists r,
    handle_tags CR CRC key_name value "regular" = Ok r
    /\ kvt_type r = "regular"
    /\ kvt_value r = Py.upper value
    /\ handle_tags CR CRC key_name (kvt_value r) "regular" = Ok r.
Proof.
  intros Hp Hcolon. eexists. rewrite !handle_tags_plain by assumption.
  repeat split. simpl. now rewrite upper_idem.
Qed.

Lemma handle_tags_regular_idempotent_witness :
  exists r,
    handle_tags example_streets example_cities "amenity" "fast_food" "regular" = Ok r
    /\ kvt_type r = "regular"
    /\ kvt_value r = "FAST_FOOD"
    /\ handle_tags example_streets example_cities "amenity" (kvt_value r) "regular"
       = Ok r.
Proof.
  exact (handle_tags_regular_idempotent example_streets example_cities
           "amenity" "fast_food" eq_refl eq_refl).
Defined.

(** ** The loops of [shape_element] *)

Lemma getitem_ok d key v : getitem d key = Ok v <-> d !! key = Some v.
Proof.
  unfold getitem. destruct (d !! key); split; intros H;
    (congruence || discriminate).
Qed.

Lemma getitem_missing d key : d !! key = None -> getitem d key = Raise (KeyError key).
Proof. unfold getitem. now intros ->. Qed.

(** The first field that the element lacks stops the loop. *)
Lemma field_loop_missing fields element attribs elemid field :
  In field fields -> attrib element !! field = None ->
  exists missing,
    field_loop fields element attribs elemid = Raise (KeyError missing)
    /\ attrib element !! missing = None.
Proof.
  revert attribs elemid.
  induction fields as [|f fields IH]; intros attribs elemid Hin Hnone;
    [destruct Hin|].
  cbn [field_loop]. destruct (attrib element !! f) as [v|] eqn:Hf.
  - assert (getitem (attrib element) f = Ok v) as -> by now apply getitem_ok.
    cbn [bind]. destruct Hin as [->|Hin]; [congruence|]. now apply IH.
  - rewrite (getitem_missing _ _ Hf). cbn [bind]. eauto.
Qed.

(** What the loop leaves in the dict and in the id variable. *)
Lemma field_loop_lookup fields element attribs elemid attribs' elemid' :
  field_loop fields element attribs elemid = Ok (attribs', elemid') ->
  (forall field, In field fields ->
     exists v, attrib element !! field = Some v
               /\ attribs' !! field = Some (Py.upper v))
  /\ (forall field, ~ In field fields -> attribs' !! field = attribs !! field)
  /\ (In "id" fields -> attrib element !! "id" = Some elemid')
  /\ (~ In "id" fields -> elemid' = elemid).
Proof.
  revert attribs elemid.
  induction fields as [|f fields IH]; intros attribs elemid; cbn [field_loop].
  - intros [= <- <-]. split; [intros ? []|]. split; [reflexivity|].
    split; [intros []|reflexivity].
  - destruct (attrib element !! f) as [v|] eqn:Hf;
      [|rewrite (getitem_missing _ _ Hf); discriminate].
    assert (getitem (attrib element) f = Ok v) as -> by now apply getitem_ok.
    cbn [bind]. intros Hloop.
    destruct (IH _ _ Hloop) as (Hin & Hout & Hid & Hnoid).
    split; [|split; [|split]].
    + intros field [<-|Hfield]; [|now apply Hin].
      destruct (in_dec string_dec f fields) as [Hf'|Hf']; [now apply Hin|].
      exists v. split; [exact Hf|].
      rewrite (Hout f Hf'). apply lookup_insert_eq.
    + intros field Hfield.
      destruct (in_dec string_dec field fields) as [Hf'|Hf'];
        [destruct Hfield; now right|].
      rewrite (Hout field Hf'). apply lookup_insert_ne.
      intros <-. apply Hfield. now left.
    + intros Hidin.
      destruct (in_dec string_dec "id" fields) as [Hf'|Hf']; [now apply Hid|].
      rewrite (Hnoid Hf').
      destruct Hidin as [->|Hidin]; [|contradiction].
      now rewrite String.eqb_refl.
    + intros Hnot. destruct (in_dec string_dec "id" fields) as [Hf'|Hf'];
        [destruct Hnot; now right|].
      rewrite (Hnoid Hf').
      destruct (String.eqb f "id") eqn:E; [|reflexivity].
      apply String.eqb_eq in E. destruct Hnot. now left.
Qed.

Lemma last_cons {A : Type} (x : A) (l : list A) (d : A) :
  List.last (x :: l) d = List.last l x.
Proof.
  revert x d. induction l as [|y l IH]; intros x d; [reflexivity|].
  change (List.last (x :: y :: l) d) with (List.last (y :: l) d).
  now rewrite !IH.
Qed.

(** The records that the tag loop appends carry the id it was given, and
    the loop leaves [element] bound to the last element it visited. *)
Lemma tag_loop_ok CR CRC elems elemid element tags element' tags' :
  tag_loop CR CRC elems elemid element tags = Ok (element', tags') ->
  element' = List.last elems element
  /\ exists new,
       tags' = tags ++ new
       /\ length new = length elems
       /\ Forall (fun t => tag_id t = elemid) new.
Proof.
  revert element tags.
  induction elems as [|e elems IH]; intros element tags; cbn [tag_loop].
  - intros [= <- <-]. split; [reflexivity|].
    exists []. now rewrite app_nil_r.
  - destruct (getitem (attrib e) "k") as [k|]; [|discriminate]. cbn [bind].
    destruct (getitem (attrib e) "v") as [v|]; [|discriminate]. cbn [bind].
    destruct (handle_tags CR CRC k v "regular") as [kvt|]; [|discriminate].
    cbn [bind]. intros Hloop.
    destruct (IH _ _ Hloop) as (-> & new & -> & Hlen & Hall).
    split; [now rewrite last_cons|].
    eexists (_ :: new). rewrite <- app_assoc. split; [reflexivity|].
    split; [simpl; now rewrite Hlen|].
    constructor; [reflexivity | exact Hall].
Qed.

(** The records that the nd loop appends: one per element, in order,
    numbered from [index] on. *)
Lemma nd_loop_ok elems wayid index way_nodes way_nodes' :
  nd_loop elems wayid index way_nodes = Ok way_nodes' ->
  exists refs,
    Forall2 (fun nd ref => attrib nd !! "ref" = Some ref) elems refs
    /\ way_nodes' =
       way_nodes ++
       map (fun p => WayNodeValues wayid (Py.upper (fst p)) (snd p))
           (combine refs (seq index (length refs))).
Proof.
  revert index way_nodes.
  induction elems as [|e elems IH]; intros index way_nodes; cbn [nd_loop].
  - intros [= <-]. exists []. split; [constructor | now rewrite app_nil_r].
  - destruct (attrib e !! "ref") as [ref|] eqn:Href;
      [|rewrite (getitem_missing _ _ Href); discriminate].
    assert (getitem (attrib e) "ref" = Ok ref) as -> by now apply getitem_ok.
    cbn [bind]. intros Hloop.
    destruct (IH _ _ Hloop) as (refs & Hrefs & ->).
    exists (ref :: refs). split; [now constructor|].
    rewrite <- app_assoc. simpl. now rewrite Nat.add_1_r.
Qed.

(** When every nd element has a ref, the loop ends normally. *)
Lemma nd_loop_total elems refs wayid index way_nodes :
  Forall2 (fun nd ref => attrib nd !! "ref" = Some ref) elems refs ->
  nd_loop elems wayid index way_nodes =
  Ok (way_nodes ++
      map (fun p => WayNodeValues wayid (Py.upper (fst p)) (snd p))
          (combine refs (seq index (length refs)))).
Proof.
  intros H. revert index way_nodes.
  induction H as [|e ref elems refs He _ IH]; intros index way_nodes;
    cbn [nd_loop].
  - now rewrite app_nil_r.
  - assert (getitem (attrib e) "ref" = Ok ref) as -> by now apply getitem_ok.
    cbn [bind]. rewrite IH, <- app_assoc. simpl. now rewrite Nat.add_1_r.
Qed.

(** ** [shape_element] *)

Lemma shape_element_node_inv CR CRC element node tags :
  shape_element CR CRC element = Ok (Some (ShapedNode node tags)) ->
  tag element = "node"
  /\ exists nodeid,
       attrib element !! "id" = Some nodeid
       /\ (forall field, In field NODE_FIELDS ->
             exists v, attrib element !! field = Some v
                       /\ node !! field = Some (Py.upper v))
       /\ (forall field, ~ In field NODE_FIELDS -> node !! field = None)
       /\ length tags = length (iter "tag" element)
       /\ Forall (fun t => tag_id t = nodeid) tags.
Proof.
  unfold shape_element.
  destruct (String.eqb (tag element) "node") eqn:Hnode.
  - apply String.eqb_eq in Hnode.
    destruct (field_loop NODE_FIELDS element ∅ EmptyString)
      as [[attribs nodeid]|] eqn:Hfields; [|discriminate].
    cbn [bind fst snd].
    destruct (tag_loop CR CRC (iter "tag" element) nodeid element [])
      as [[element' tags']|] eqn:Htags; [|discriminate].
    cbn [bind snd]. intros [= <- <-].
    apply field_loop_lookup in Hfields as (Hin & Hout & Hid & _).
    apply tag_loop_ok in Htags as (_ & new & -> & Hlen & Hall).
    split; [exact Hnode|]. exists nodeid.
    split; [apply Hid; now left|]. split; [exact Hin|].
    split; [intros field Hf; rewrite (Hout field Hf); apply lookup_empty|].
    now split.
  - destruct (String.eqb (tag element) "way"); [|discriminate].
    destruct (field_loop WAY_FIELDS element ∅ EmptyString)
      as [[attribs wayid]|]; [|discriminate].
    cbn [bind fst snd].
    destruct (tag_loop CR CRC (iter "tag" element) wayid element [])
      as [[element' tags']|]; [|discriminate].
    cbn [bind fst snd].
    destruct (nd_loop (iter "nd" element') wayid 0 []); discriminate.
Qed.

Lemma shape_element_way_inv CR CRC element way way_nodes tags :
  shape_element CR CRC element = Ok (Some (ShapedWay way way_nodes tags)) ->
  tag element = "way"
  /\ exists wayid refs,
       attrib element !! "id" = Some wayid
       /\ (forall field, In field WAY_FIELDS ->
             exists v, attrib element !! field = Some v
                       /\ way !! field = Some (Py.upper v))
       /\ (forall field, ~ In field WAY_FIELDS -> way !! field = None)
       /\ length tags = length (iter "tag" element)
       /\ Forall (fun t => tag_id t = wayid) tags
       /\ Forall2 (fun nd ref => attrib nd !! "ref" = Some ref)
            (iter "nd" (working_element element)) refs
       /\ way_nodes = way_nodes_of wayid refs.
Proof.
  unfold shape_element.
  destruct (String.eqb (tag element) "node") eqn:Hnode.
  - destruct (field_loop NODE_FIELDS element ∅ EmptyString)
      as [[attribs nodeid]|]; [|discriminate].
    cbn [bind fst snd].
    destruct (tag_loop CR CRC (iter "tag" element) nodeid element [])
      as [[element' tags']|]; discriminate.
  - destruct (String.eqb (tag element) "way") eqn:Hway; [|discriminate].
    apply String.eqb_eq in Hway.
    destruct (field_loop WAY_FIELDS element ∅ EmptyString)
      as [[attribs wayid]|] eqn:Hfields; [|discriminate].
    cbn [bind fst snd].
    destruct (tag_loop CR CRC (iter "tag" element) wayid element [])
      as [[element' tags']|] eqn:Htags; [|discriminate].
    cbn [bind fst snd].
    destruct (nd_loop (iter "nd" element') wayid 0 []) as [nodes|] eqn:Hnd;
      [|discriminate].
    cbn [bind]. intros [= <- <- <-].
    apply field_loop_lookup in Hfields as (Hin & Hout & Hid & _).
    apply tag_loop_ok in Htags as (-> & new & -> & Hlen & Hall).
    apply nd_loop_ok in Hnd as (refs & Hrefs & ->).
    split; [exact Hway|]. exists wayid, refs.
    split; [apply Hid; now left|]. split; [exact Hin|].
    split; [intros field Hf; rewrite (Hout field Hf); apply lookup_empty|].
    repeat split; assumption.
Qed.

(** C3: a node or a way that lacks one of the attributes of its field
    list makes [shape_element] raise [KeyError] (the missing-attribute
    error), for the first field of the list that is missing: no dict is
    returned, so there is no partial output for the element. *)
Theorem shape_element_missing_attribute CR CRC element field :
  tag element = "node" /\ In field NODE_FIELDS
  \/ tag element = "way" /\ In field WAY_FIELDS ->
  attrib element !! field = None ->
  exists missing,
    shape_element CR CRC element = Raise (KeyError missing)
    /\ attrib element !! missing = None.
Proof.
  intros [[Htag Hin]|[Htag Hin]] Hnone; unfold shape_element; rewrite Htag.
  - destruct (field_loop_missing NODE_FIELDS element ∅ EmptyString field Hin Hnone)
      as (missing & -> & Hm).
    exists missing. now split.
  - destruct (field_loop_missing WAY_FIELDS element ∅ EmptyString field Hin Hnone)
      as (missing & -> & Hm).
    exists missing. now split.
Qed.

Lemma shape_element_missing_attribute_witness :
  exists missing,
    shape_element example_streets example_cities node_without_uid
      = Raise (KeyError missing)
    /\ attrib node_without_uid !! missing = None.
Proof.
  apply (shape_element_missing_attribute example_streets example_cities
           node_without_uid "uid").
  - left. split; [reflexivity|]. simpl. tauto.
  - reflexivity.
Defined.

(** The node of the witness lacks uid, and uid is what the error names. *)
Example shape_element_without_uid CR CRC :
  shape_element CR CRC node_without_uid = Raise (KeyError "uid").
Proof. reflexivity. Qed.

(** C2: a tag whose key has a problem character is not skipped. In
    [handle_tags] no branch binds [type_name] for such a key, the return
    raises [UnboundLocalError], and [shape_element] ends with that error
    for the whole node, although the docstring says that the tag should
    be ignored. *)
Theorem shape_element_problem_key_raises CR CRC :
  handle_tags CR CRC "opening hours" "24/7" "regular"
    = Raise (UnboundLocalError "type_name")
  /\ shape_element CR CRC node_opening_hours
     = Raise (UnboundLocalError "type_name").
Proof. split; reflexivity. Qed.

Lemma map_snd_combine_length {A B : Type} (a : list A) (b : list B) :
  length a = length b -> map snd (combine a b) = b.
Proof.
  revert b. induction a as [|x a IH]; intros [|y b]; simpl; try discriminate.
  - reflexivity.
  - intros [= Hlen]. now rewrite IH.
Qed.

Lemma way_nodes_of_positions wayid refs :
  map wn_position (way_nodes_of wayid refs) = seq 0 (length refs).
Proof.
  unfold way_nodes_of. rewrite map_map. simpl.
  apply map_snd_combine_length. now rewrite length_seq.
Qed.

Lemma way_nodes_of_length wayid refs :
  length (way_nodes_of wayid refs) = length refs.
Proof.
  unfold way_nodes_of.
  now rewrite length_map, length_combine, length_seq, Nat.min_id.
Qed.

(** Without tag elements the nd loop runs over the way itself: one
    record per nd element, in document order, numbered from 0. *)
Lemma shape_element_way_untagged CR CRC element way way_nodes tags :
  shape_element CR CRC element = Ok (Some (ShapedWay way way_nodes tags)) ->
  iter "tag" element = [] ->
  length way_nodes = length (iter "nd" element)
  /\ map wn_position way_nodes = seq 0 (length (iter "nd" element)).
Proof.
  intros Hshape Hnotag.
  apply shape_element_way_inv in Hshape
    as (_ & wayid & refs & _ & _ & _ & _ & _ & Hrefs & ->).
  unfold working_element in Hrefs. rewrite Hnotag in Hrefs. simpl in Hrefs.
  apply Forall2_length in Hrefs. rewrite Hrefs.
  now rewrite way_nodes_of_length, way_nodes_of_positions.
Qed.

(** With tag elements the nd loop runs over the last of them, since the
    tag loop has rebound [element]: when nothing below that tag element
    is an nd element, no record is made, however many nd elements the
    way has. *)
Lemma shape_element_way_tagged CR CRC element way way_nodes tags :
  shape_element CR CRC element = Ok (Some (ShapedWay way way_nodes tags)) ->
  iter "nd" (working_element element) = [] ->
  way_nodes = [].
Proof.
  intros Hshape Hnd.
  apply shape_element_way_inv in Hshape
    as (_ & wayid & refs & _ & _ & _ & _ & _ & Hrefs & ->).
  rewrite Hnd in Hrefs. apply Forall2_nil_inv_l in Hrefs as ->. reflexivity.
Qed.

(** The way through 10, 20 and 10 without a tag gets the positions 0, 1
    and 2. *)
Example shape_element_way_refs CR CRC :
  shape_element CR CRC way_refs =
  Ok (Some (ShapedWay
              (attrs [("id", "209809850"); ("user", "CHICAGO-BUILDINGS");
                      ("uid", "674454"); ("version", "1");
                      ("timestamp", "2013-03-13T15:58:04Z");
                      ("changeset", "15353317")])
              [WayNodeValues "209809850" "10" 0;
               WayNodeValues "209809850" "20" 1;
               WayNodeValues "209809850" "10" 2]
              [])).
Proof. vm_compute. reflexivity. Qed.

(** C4: the same way with one tag gets no way_nodes records at all. The
    loop over the tag elements rebinds [element], so the loop over the nd
    elements searches the last tag element instead of the way; the claim
    (and the docstring: one dict for each nd child) wants the positions
    0, 1 and 2 here. *)
Theorem shape_element_way_nodes_lost CR CRC :
  shape_element CR CRC way_refs_tagged =
  Ok (Some (ShapedWay
              (attrs [("id", "209809850"); ("user", "CHICAGO-BUILDINGS");
                      ("uid", "674454"); ("version", "1");
                      ("timestamp", "2013-03-13T15:58:04Z");
                      ("changeset", "15353317")])
              []
              [TagValues "209809850" "building" "YES" "regular"])).
Proof. vm_compute. reflexivity. Qed.

(** The owner id of the tag records is the id attribute as it is, while
    the primary record holds it upper-cased: an id with a lower-case
    letter, which no OSM file has, would be n757860928 in the tag record
    and N757860928 in the primary record. *)
Example shape_element_owner_id_differs CR CRC :
  exists node tags,
    shape_element CR CRC node_lower_id = Ok (Some (ShapedNode node tags))
    /\ node !! "id" = Some "N757860928"
    /\ map tag_id tags = ["n757860928"].
Proof. do 2 eexists. split; [reflexivity|]. split; reflexivity. Qed.

(** All records of one element carry the same owner id, the id attribute
    of the element, and the primary record holds its upper-cased form. *)
Lemma shape_element_owner_ids CR CRC element out :
  shape_element CR CRC element = Ok (Some out) ->
  exists elemid,
    attrib element !! "id" = Some elemid
    /\ match out with
       | ShapedNode node tags =>
           node !! "id" = Some (Py.upper elemid)
           /\ Forall (fun t => tag_id t = elemid) tags
       | ShapedWay way way_nodes tags =>
           way !! "id" = Some (Py.upper elemid)
           /\ Forall (fun t => tag_id t = elemid) tags
           /\ Forall (fun n => wn_id n = elemid) way_nodes
       end.
Proof.
  destruct out as [node tags|way way_nodes tags]; intros Hshape.
  - apply shape_element_node_inv in Hshape
      as (_ & nodeid & Hid & Hin & _ & _ & Hall).
    exists nodeid. split; [exact Hid|]. split; [|exact Hall].
    destruct (Hin "id") as (v & Hv & ->); [now left|]. congruence.
  - apply shape_element_way_inv in Hshape
      as (_ & wayid & refs & Hid & Hin & _ & _ & Hall & _ & ->).
    exists wayid. split; [exact Hid|]. split; [|split; [exact Hall|]].
    + destruct (Hin "id") as (v & Hv & ->); [now left|]. congruence.
    + unfold way_nodes_of. apply Forall_map. simpl. now apply Forall_true.
Qed.

(** * Further properties of the code *)

(** ** [update_name] and [update_city_name] called on their own *)

Lemma update_name_str_upper name CR :
  Py.is_unicode name = false ->
  exists new_name,
    update_name name CR = Ok new_name /\ Py.upper new_name = new_name.
Proof.
  intros Hstr. rewrite update_name_full_form by exact Hstr.
  eexists. split; [reflexivity|].
  destruct (Re.street_type_re_search name) as [street_type|];
    [|apply upper_idem].
  destruct (full_form CR (Py.upper street_type)); apply upper_idem.
Qed.

Lemma update_name_ok_upper name CR new_name :
  update_name name CR = Ok new_name -> Py.upper new_name = new_name.
Proof.
  destruct (Py.is_unicode name) eqn:Hstr.
  - now rewrite update_name_unicode.
  - destruct (update_name_str_upper name CR Hstr) as (x & -> & Hx).
    now intros [= <-].
Qed.

(** X1: [update_name] returns for a [str] name, and returns an
    upper-case string: each [.iloc[0]] is guarded by the membership test
    before it, so no [IndexError] can come out of it. For a [unicode]
    name, with or without a street type token, the first [str.upper]
    call raises [TypeError]. *)
Theorem update_name_returns_upper name CR :
  (Py.is_unicode name = false ->
   exists new_name,
     update_name name CR = Ok new_name /\ Py.upper new_name = new_name)
  /\ (Py.is_unicode name = true -> update_name name CR = Raise TypeError).
Proof.
  split; [apply update_name_str_upper | apply update_name_unicode].
Qed.

(** X2: the token is replaced in its upper-case form only. When that
    form does not occur in a [str] name as it is written, nothing is
    substituted, whatever the frame maps the token to: the result is the
    upper-cased name. *)
Theorem update_name_mixed_case name CR street_type :
  Py.is_unicode name = false ->
  Re.street_type_re_search name = Some street_type ->
  find_str (Py.upper street_type) name = None ->
  update_name name CR = Ok (Py.upper name).
Proof.
  intros Hstr Hsearch Hfind.
  rewrite update_name_full_form, Hsearch by exact Hstr.
  destruct (full_form CR (Py.upper street_type)); [|reflexivity].
  now rewrite replace_absent.
Qed.

Lemma update_name_mixed_case_witness :
  update_name "Lincoln St" [StreetRow "STREET" "ST" "ST"] = Ok "LINCOLN ST".
Proof.
  exact (update_name_mixed_case "Lincoln St" [StreetRow "STREET" "ST" "ST"] "St"
           eq_refl eq_refl eq_refl).
Defined.

Lemma append_nil_r (s : string) : s +:+ EmptyString = s.
Proof. induction s as [|c s IH]; simpl; [reflexivity | now rewrite IH]. Qed.

(** [s.replace(s, new)] is [new]. *)
Lemma replace_self s new : Py.replace s s new = new.
Proof.
  unfold Py.replace. destruct s as [|c s]; [reflexivity|].
  pose proof (replace_go_at (String c s) new EmptyString) as H.
  rewrite append_nil_r in H. rewrite H by discriminate.
  apply append_nil_r.
Qed.

Lemma update_city_name_first_row name CR row :
  Pd.isin (Py.upper name) (map OriginalName CR) = true ->
  first_row OriginalName name CR = Some row ->
  update_city_name name CR = Ok (NewName row).
Proof.
  intros Hin Hrow.
  rewrite update_city_name_str by exact (first_row_str _ _ _ _ Hrow).
  now rewrite Hin, Hrow, replace_self.
Qed.

(** X3: when the upper-cased name is in the OriginalName column and the
    name as given is too, [update_city_name] returns the NewName of the
    first row whose OriginalName is the name. *)
Theorem update_city_name_hit name CR row :
  Pd.isin (Py.upper name) (map OriginalName CR) = true ->
  first_row OriginalName name CR = Some row ->
  update_city_name name CR = Ok (NewName row).
Proof. apply update_city_name_first_row. Qed.

Lemma update_city_name_hit_witness :
  update_city_name "VEGAS"
    [CityRow "VEGAS" "LAS VEGAS"; CityRow "VEGAS" "NORTH LAS VEGAS"]
  = Ok "LAS VEGAS".
Proof.
  exact (update_city_name_hit "VEGAS"
           [CityRow "VEGAS" "LAS VEGAS"; CityRow "VEGAS" "NORTH LAS VEGAS"]
           (CityRow "VEGAS" "LAS VEGAS") eq_refl eq_refl).
Defined.

(** X4: the membership test upper-cases the name but the row selection
    does not. A name that is in the OriginalName column only in its
    upper-case form passes the test, selects no row, and [.iloc[0]]
    raises [IndexError]. *)
Theorem update_city_name_index_error name CR :
  Pd.isin (Py.upper name) (map OriginalName CR) = true ->
  Pd.isin name (map OriginalName CR) = false ->
  update_city_name name CR = Raise IndexError.
Proof.
  intros Hin Hout.
  rewrite update_city_name_str
    by (rewrite <- is_unicode_upper; exact (isin_str _ _ Hin)).
  rewrite Hin. apply isin_false_first_row in Hout. now rewrite Hout.
Qed.

Lemma update_city_name_index_error_witness :
  update_city_name "Las Vegas" example_cities = Raise IndexError.
Proof.
  exact (update_city_name_index_error "Las Vegas" example_cities
           eq_refl eq_refl).
Defined.

(** ** [handle_tags] *)

(** X5: for a tag whose key has city after its first colon, when the
    upper-cased value is in the OriginalName column, the value of the
    record is the NewName of the first row with that OriginalName, as the
    frame holds it. *)
Theorem handle_tags_city_hit CR CRC key_name value row :
  Re.PROBLEMCHARS_search key_name = false ->
  Py.contains ":" key_name = true ->
  snd (Py.split1 ":" key_name) = "city" ->
  first_row OriginalName (Py.upper value) CRC = Some row ->
  handle_tags CR CRC key_name value "regular" =
  Ok (KeyValueType (fst (Py.split1 ":" key_name)) (NewName row) "city").
Proof.
  intros Hp Hcolon Hcity Hrow.
  rewrite handle_tags_city by assumption.
  rewrite (update_city_name_first_row (Py.upper value) CRC row); [reflexivity| |exact Hrow].
  rewrite upper_idem. apply isin_first_row. eauto.
Qed.

Lemma handle_tags_city_hit_witness :
  handle_tags example_streets [CityRow "VEGAS" "Las Vegas"]
    "addr:city" "Vegas" "regular"
  = Ok (KeyValueType "addr" "Las Vegas" "city").
Proof.
  exact (handle_tags_city_hit example_streets [CityRow "VEGAS" "Las Vegas"]
           "addr:city" "Vegas" (CityRow "VEGAS" "Las Vegas")
           eq_refl eq_refl eq_refl eq_refl).
Defined.

Lemma handle_tags_clean_returns CR CRC key_name value default_tag_type :
  clean_key_value key_name value ->
  exists r, handle_tags CR CRC key_name value default_tag_type = Ok r.
Proof.
  intros [Hp Hstr]. unfold looked_up in Hstr.
  unfold handle_tags. rewrite Hp. cbn [negb].
  destruct (Py.contains ":" key_name); [|eauto]. cbn [andb] in Hstr.
  destruct (String.eqb (snd (Py.split1 ":" key_name)) "street").
  - rewrite update_name_full_form
      by (rewrite is_unicode_upper; now apply Hstr).
    cbn [bind]. eauto.
  - destruct (String.eqb (snd (Py.split1 ":" key_name)) "city"); [|eauto].
    destruct (update_city_name_upper value CRC) as [x ->];
      [now apply Hstr|].
    cbn [bind]. eauto.
Qed.

(** A [unicode] value under a street or city key ends in the
    [TypeError] of [str.upper]. *)
Lemma handle_tags_unicode CR CRC key_name value default_tag_type :
  Re.PROBLEMCHARS_search key_name = false ->
  looked_up key_name = true ->
  Py.is_unicode value = true ->
  handle_tags CR CRC key_name value default_tag_type = Raise TypeError.
Proof.
  intros Hp Hlook Hstr. unfold looked_up in Hlook.
  unfold handle_tags. rewrite Hp. cbn [negb].
  destruct (Py.contains ":" key_name); [|discriminate]. cbn [andb] in Hlook.
  destruct (String.eqb (snd (Py.split1 ":" key_name)) "street").
  - now rewrite update_name_unicode by now rewrite is_unicode_upper.
  - destruct (String.eqb (snd (Py.split1 ":" key_name)) "city");
      [|discriminate].
    now rewrite update_city_name_unicode by now rewrite is_unicode_upper.
Qed.

Lemma handle_tags_ok_clean CR CRC key_name value default_tag_type r :
  handle_tags CR CRC key_name value default_tag_type = Ok r ->
  clean_key_value key_name value.
Proof.
  intros Hr.
  destruct (Re.PROBLEMCHARS_search key_name) eqn:Hp;
    [rewrite handle_tags_problem in Hr by exact Hp; discriminate|].
  split; [exact Hp|]. intros Hlook.
  destruct (Py.is_unicode value) eqn:Hstr; [|reflexivity].
  rewrite handle_tags_unicode in Hr by assumption. discriminate.
Qed.

(** X6: [handle_tags] returns a record exactly when the key has no
    problem character and the value is a [str] or the key is not one
    whose value is looked up. It raises [UnboundLocalError] for
    [type_name] for a key with a problem character and [TypeError] for a
    [unicode] value under a street or city key, and nothing else: in
    particular the city lookup cannot raise [IndexError] here, because
    the value it is given has been upper-cased. *)
Theorem handle_tags_returns_iff_clean CR CRC key_name value default_tag_type :
  ((exists r, handle_tags CR CRC key_name value default_tag_type = Ok r)
   <-> clean_key_value key_name value)
  /\ (forall e, handle_tags CR CRC key_name value default_tag_type = Raise e ->
        Re.PROBLEMCHARS_search key_name = true
        /\ e = UnboundLocalError "type_name"
        \/ Re.PROBLEMCHARS_search key_name = false
           /\ looked_up key_name = true /\ Py.is_unicode value = true
           /\ e = TypeError).
Proof.
  split.
  - split; [intros [r Hr]; eapply handle_tags_ok_clean, Hr
           | apply handle_tags_clean_returns].
  - intros e He.
    destruct (Re.PROBLEMCHARS_search key_name) eqn:Hp.
    + rewrite handle_tags_problem in He by exact Hp.
      left. split; [reflexivity | congruence].
    + right. split; [reflexivity|].
      destruct (looked_up key_name) eqn:Hlook.
      * destruct (Py.is_unicode value) eqn:Hstr.
        -- rewrite handle_tags_unicode in He by assumption.
           repeat split. congruence.
        -- destruct (handle_tags_clean_returns CR CRC key_name value
                       default_tag_type) as [r Hr];
             [split; [exact Hp | intros _; exact Hstr]|].
           congruence.
      * destruct (handle_tags_clean_returns CR CRC key_name value
                    default_tag_type) as [r Hr];
          [split; [exact Hp | intros H; congruence]|].
        congruence.
Qed.

(** X7: the value of a record whose type is not city is upper-case:
    plain tags, street tags and tags of any other type are upper-cased,
    and only a city tag can carry a value taken from a frame as it is. *)
Theorem handle_tags_value_upper CR CRC key_name value default_tag_type r :
  handle_tags CR CRC key_name value default_tag_type = Ok r ->
  kvt_type r <> "city" ->
  Py.upper (kvt_value r) = kvt_value r.
Proof.
  unfold handle_tags.
  destruct (Re.PROBLEMCHARS_search key_name); [discriminate|]. cbn [negb].
  destruct (Py.contains ":" key_name);
    [|intros [= <-] _; apply upper_idem].
  destruct (String.eqb (snd (Py.split1 ":" key_name)) "street").
  - destruct (update_name (Py.upper value) CR) as [x|] eqn:Hx;
      [|discriminate].
    cbn [bind]. intros [= <-] _. eapply update_name_ok_upper, Hx.
  - destruct (String.eqb (snd (Py.split1 ":" key_name)) "city") eqn:Hcity.
    + apply String.eqb_eq in Hcity.
      destruct (update_city_name (Py.upper value) CRC); [|discriminate].
      cbn [bind]. intros [= <-] Hne. now destruct Hne.
    + intros [= <-] _. apply upper_idem.
Qed.

Lemma handle_tags_value_upper_witness :
  Py.upper "LINCOLN STREET" = "LINCOLN STREET".
Proof.
  exact (handle_tags_value_upper example_streets example_cities
           "addr:street" "Lincoln St" "regular"
           (KeyValueType "addr" "LINCOLN STREET" "street")
           eq_refl ltac:(discriminate)).
Defined.

Lemma prefix_char_cons sep c s :
  String.prefix (String sep EmptyString) (String c s) = Ascii.eqb c sep.
Proof.
  simpl. destruct (ascii_dec sep c) as [->|Hne].
  - rewrite Ascii.eqb_refl. now destruct s.
  - symmetry. apply Ascii.eqb_neq. congruence.
Qed.

Lemma contains_char_cons sep c s :
  Py.contains (String sep EmptyString) (String c s) =
  Ascii.eqb c sep || Py.contains (String sep EmptyString) s.
Proof.
  cbn [Py.contains]. now rewrite prefix_char_cons.
Qed.

(** [split(sep, 1)] loses nothing: its parts joined by [sep] are the
    string, and [sep] is not in the first part. *)
Lemma split1_join sep s :
  Py.contains (String sep EmptyString) s = true ->
  s = fst (Py.split1 sep s) +:+ String sep (snd (Py.split1 sep s))
  /\ Py.contains (String sep EmptyString) (fst (Py.split1 sep s)) = false.
Proof.
  induction s as [|c s IH]; [discriminate|].
  rewrite contains_char_cons. cbn [Py.split1].
  destruct (Ascii.eqb c sep) eqn:Hc.
  - intros _. apply Ascii.eqb_eq in Hc as ->. now split.
  - cbn [orb]. intros Hs. destruct (IH Hs) as [IH1 IH2].
    destruct (Py.split1 sep s) as [a b]. cbn [fst snd] in *.
    split; [simpl; now f_equal|].
    now rewrite contains_char_cons, Hc, IH2.
Qed.

(** X8: for a key with a colon, the key field and the type field joined
    by a colon give back the raw key, and the key field has no colon:
    the split is at the first colon and drops or changes nothing. *)
Theorem handle_tags_key_type_join CR CRC key_name value default_tag_type r :
  handle_tags CR CRC key_name value default_tag_type = Ok r ->
  Py.contains ":" key_name = true ->
  key_name = kvt_key r +:+ ":" +:+ kvt_type r
  /\ Py.contains ":" (kvt_key r) = false.
Proof.
  intros Hr Hcolon. destruct (split1_join ":"%char key_name Hcolon) as [Hjoin Hno].
  revert Hr. unfold handle_tags.
  destruct (Re.PROBLEMCHARS_search key_name); [discriminate|]. cbn [negb].
  rewrite Hcolon.
  destruct (String.eqb (snd (Py.split1 ":" key_name)) "street").
  - destruct (update_name (Py.upper value) CR); [|discriminate].
    cbn [bind]. intros [= <-]. now split.
  - destruct (String.eqb (snd (Py.split1 ":" key_name)) "city").
    + destruct (update_city_name (Py.upper value) CRC); [|discriminate].
      cbn [bind]. intros [= <-]. now split.
    + intros [= <-]. now split.
Qed.

Lemma handle_tags_key_type_join_witness :
  "addr:street:name" = "addr" +:+ ":" +:+ "street:name"
  /\ Py.contains ":" "addr" = false.
Proof.
  exact (handle_tags_key_type_join example_streets example_cities
           "addr:street:name" "Lincoln" "regular"
           (KeyValueType "addr" "LINCOLN" "street:name") eq_refl eq_refl).
Defined.

(** ** [shape_element] *)

Lemma field_loop_total fields element attribs elemid :
  has_fields fields element ->
  exists st, field_loop fields element attribs elemid = Ok st.
Proof.
  revert attribs elemid.
  induction fields as [|f fields IH]; intros attribs elemid Hall;
    cbn [field_loop]; [eauto|].
  destruct (Hall f) as [v Hv]; [now left|].
  assert (getitem (attrib element) f = Ok v) as -> by now apply getitem_ok.
  cbn [bind]. apply IH. intros g Hg. apply Hall. now right.
Qed.

Lemma field_loop_has_fields fields element attribs elemid st :
  field_loop fields element attribs elemid = Ok st ->
  has_fields fields element.
Proof.
  destruct st as [attribs' elemid']. intros Hloop field Hin.
  apply field_loop_lookup in Hloop as (Hfields & _).
  destruct (Hfields field Hin) as (v & -> & _). eauto.
Qed.

Lemma tag_loop_records CR CRC elems elemid element tags element' tags' :
  tag_loop CR CRC elems elemid element tags = Ok (element', tags') ->
  exists new,
    tags' = tags ++ new /\ Forall2 (tag_record_of CR CRC elemid) elems new.
Proof.
  revert element tags.
  induction elems as [|e elems IH]; intros element tags; cbn [tag_loop].
  - intros [= <- <-]. exists []. split; [now rewrite app_nil_r | constructor].
  - destruct (attrib e !! "k") as [k|] eqn:Hk;
      [|rewrite (getitem_missing _ _ Hk); discriminate].
    assert (getitem (attrib e) "k" = Ok k) as -> by now apply getitem_ok.
    cbn [bind].
    destruct (attrib e !! "v") as [v|] eqn:Hv;
      [|rewrite (getitem_missing _ _ Hv); discriminate].
    assert (getitem (attrib e) "v" = Ok v) as -> by now apply getitem_ok.
    cbn [bind].
    destruct (handle_tags CR CRC k v "regular") as [kvt|] eqn:Hkvt;
      [|discriminate].
    cbn [bind]. intros Hloop.
    destruct (IH _ _ Hloop) as (new & -> & Hall).
    eexists (_ :: new). rewrite <- app_assoc. split; [reflexivity|].
    constructor; [|exact Hall].
    exists k, v, kvt. auto.
Qed.

Lemma tag_loop_clean CR CRC elems elemid element tags st :
  tag_loop CR CRC elems elemid element tags = Ok st ->
  Forall clean_tag elems.
Proof.
  destruct st as [element' tags']. intros Hloop.
  apply tag_loop_records in Hloop as (new & _ & Hall).
  induction Hall as [|e t elems new (k & v & kvt & Hk & Hv & Hkvt & _) _ IH];
    constructor; [|exact IH].
  exists k, v. split; [exact Hk|]. split; [exact Hv|].
  eapply handle_tags_ok_clean, Hkvt.
Qed.

Lemma tag_loop_total CR CRC elems elemid element tags :
  Forall clean_tag elems ->
  exists st, tag_loop CR CRC elems elemid element tags = Ok st.
Proof.
  intros Hall. revert element tags.
  induction Hall as [|e elems (k & v & Hk & Hv & Hp) _ IH];
    intros element tags; cbn [tag_loop]; [eauto|].
  assert (getitem (attrib e) "k" = Ok k) as -> by now apply getitem_ok.
  assert (getitem (attrib e) "v" = Ok v) as -> by now apply getitem_ok.
  cbn [bind].
  destruct (handle_tags_clean_returns CR CRC k v "regular" Hp) as [kvt ->].
  cbn [bind]. apply IH.
Qed.

Lemma nd_loop_refs elems wayid index way_nodes :
  (exists out, nd_loop elems wayid index way_nodes = Ok out)
  <-> Forall (fun nd => is_Some (attrib nd !! "ref")) elems.
Proof.
  split.
  - intros [out Hloop]. apply nd_loop_ok in Hloop as (refs & Hrefs & _).
    induction Hrefs; constructor; eauto.
  - intros Hall.
    assert (exists refs,
              Forall2 (fun nd ref => attrib nd !! "ref" = Some ref) elems refs)
      as [refs Hrefs].
    { induction Hall as [|e elems [ref Href] _ [refs IH]].
      - exists []. constructor.
      - exists (ref :: refs). now constructor. }
    rewrite (nd_loop_total _ _ _ _ _ Hrefs). eauto.
Qed.

(** A node or a way that is shapeable is shaped. *)
Lemma shape_element_shapeable CR CRC element :
  shapeable element ->
  exists out, shape_element CR CRC element = Ok (Some out).
Proof.
  intros [(Htag & Hhas & Hclean)|(Htag & Hhas & Hclean & Hrefs)];
    unfold shape_element; rewrite Htag.
  - change (String.eqb "node" "node") with true. cbv iota.
    destruct (field_loop_total _ _ ∅ EmptyString Hhas) as [[attribs nodeid] ->].
    cbn [bind fst snd].
    destruct (tag_loop_total CR CRC _ nodeid element [] Hclean) as [st ->].
    cbn [bind]. eauto.
  - change (String.eqb "way" "node") with false.
    change (String.eqb "way" "way") with true. cbv iota.
    destruct (field_loop_total _ _ ∅ EmptyString Hhas) as [[attribs wayid] ->].
    cbn [bind fst snd].
    destruct (tag_loop_total CR CRC _ wayid element [] Hclean)
      as [[element' tags] Htags].
    rewrite Htags. cbn [bind fst snd].
    apply tag_loop_ok in Htags as (-> & _).
    fold (working_element element).
    apply (nd_loop_refs _ wayid 0 []) in Hrefs as [way_nodes ->].
    cbn [bind]. eauto.
Qed.

Lemma way_nodes_of_node_ids wayid refs :
  map wn_node_id (way_nodes_of wayid refs) = map Py.upper refs.
Proof.
  unfold way_nodes_of. rewrite map_map. simpl.
  rewrite <- (map_map fst Py.upper). f_equal.
  generalize 0. induction refs as [|r refs IH]; intros n;
    [reflexivity|simpl; now rewrite IH].
Qed.

(** C8: a node or a way that is shapeable, with an id that upper-casing
    leaves as it is (as it leaves the decimal ids of OSM), is shaped, and
    the id of its primary record is the owner id of every tag record and
    of every way_nodes record made for it; there is a tag record for
    every tag element, and a way_nodes record for every nd element that
    the nd loop visits. The owner id is the id attribute, bound before
    the loops rebind [element]. *)
Theorem shape_element_owner_id_shared CR CRC element :
  shapeable element ->
  upper_id element ->
  exists out id,
    shape_element CR CRC element = Ok (Some out)
    /\ attrib element !! "id" = Some id
    /\ match out with
       | ShapedNode node tags =>
           node !! "id" = Some id
           /\ length tags = length (iter "tag" element)
           /\ Forall (fun t => tag_id t = id) tags
       | ShapedWay way way_nodes tags =>
           way !! "id" = Some id
           /\ length tags = length (iter "tag" element)
           /\ Forall (fun t => tag_id t = id) tags
           /\ length way_nodes = length (iter "nd" (working_element element))
           /\ Forall (fun n => wn_id n = id) way_nodes
       end.
Proof.
  intros Hshapeable Hupper.
  destruct (shape_element_shapeable CR CRC element Hshapeable) as [out Hout].
  exists out. destruct out as [node tags|way way_nodes tags].
  - apply shape_element_node_inv in Hout as Hinv.
    destruct Hinv as (_ & nodeid & Hid & Hin & _ & Hlen & Hall).
    exists nodeid. split; [exact Hout|]. split; [exact Hid|].
    split; [|now split].
    destruct (Hin "id") as (v & Hv & ->); [now left|].
    rewrite Hid in Hv. injection Hv as <-. now rewrite (Hupper nodeid Hid).
  - apply shape_element_way_inv in Hout as Hinv.
    destruct Hinv as (_ & wayid & refs & Hid & Hin & _ & Hlen & Hall & Hrefs & ->).
    exists wayid. split; [exact Hout|]. split; [exact Hid|].
    split; [|split; [exact Hlen|split; [exact Hall|split]]].
    + destruct (Hin "id") as (v & Hv & ->); [now left|].
      rewrite Hid in Hv. injection Hv as <-. now rewrite (Hupper wayid Hid).
    + rewrite way_nodes_of_length. symmetry. eapply Forall2_length, Hrefs.
    + unfold way_nodes_of. apply Forall_map. simpl. now apply Forall_true.
Qed.

Lemma shape_element_owner_id_shared_witness :
  (exists out id,
     shape_element example_streets example_cities node_fast_food = Ok (Some out)
     /\ attrib node_fast_food !! "id" = Some id
     /\ match out with
        | ShapedNode node tags =>
            node !! "id" = Some id
            /\ length tags = length (iter "tag" node_fast_food)
            /\ Forall (fun t => tag_id t = id) tags
        | ShapedWay way way_nodes tags =>
            way !! "id" = Some id
            /\ length tags = length (iter "tag" node_fast_food)
            /\ Forall (fun t => tag_id t = id) tags
            /\ length way_nodes
               = length (iter "nd" (working_element node_fast_food))
            /\ Forall (fun n => wn_id n = id) way_nodes
        end)
  /\ (exists out id,
        shape_element example_streets example_cities way_refs = Ok (Some out)
        /\ attrib way_refs !! "id" = Some id
        /\ match out with
           | ShapedNode node tags =>
               node !! "id" = Some id
               /\ length tags = length (iter "tag" way_refs)
               /\ Forall (fun t => tag_id t = id) tags
           | ShapedWay way way_nodes tags =>
               way !! "id" = Some id
               /\ length tags = length (iter "tag" way_refs)
               /\ Forall (fun t => tag_id t = id) tags
               /\ length way_nodes = length (iter "nd" (working_element way_refs))
               /\ Forall (fun n => wn_id n = id) way_nodes
           end).
Proof.
  split.
  - apply (shape_element_owner_id_shared example_streets example_cities
             node_fast_food).
    + left. split; [reflexivity|]. split.
      * intros field Hin. cbn in Hin.
        repeat (destruct Hin as [<-|Hin]; [vm_compute; eauto|]). destruct Hin.
      * constructor; [|constructor]. exists "amenity", "fast_food".
        repeat split; reflexivity.
    + intros id Hid. vm_compute in Hid. injection Hid as <-. reflexivity.
  - apply (shape_element_owner_id_shared example_streets example_cities
             way_refs).
    + right. split; [reflexivity|]. split; [|split].
      * intros field Hin. cbn in Hin.
        repeat (destruct Hin as [<-|Hin]; [vm_compute; eauto|]). destruct Hin.
      * constructor.
      * repeat constructor; vm_compute; eauto.
    + intros id Hid. vm_compute in Hid. injection Hid as <-. reflexivity.
Defined.

(** C9: a node or a way that is shapeable is shaped, and in its dict
    every field of the field list of its kind (id, user and timestamp
    among them) holds the upper-cased attribute of the element and there
    is no other field; the node_id of every way_nodes record is the
    upper-cased ref of the nd element it was made from. *)
Theorem shape_element_uppercased CR CRC element :
  shapeable element ->
  exists out,
    shape_element CR CRC element = Ok (Some out)
    /\ match out with
       | ShapedNode node _ =>
           tag element = "node"
           /\ uppercased_record NODE_FIELDS element node
       | ShapedWay way way_nodes _ =>
           tag element = "way"
           /\ uppercased_record WAY_FIELDS element way
           /\ uppercased_refs element way_nodes
       end.
Proof.
  intros Hshapeable.
  destruct (shape_element_shapeable CR CRC element Hshapeable) as [out Hout].
  exists out. split; [exact Hout|].
  destruct out as [node tags|way way_nodes tags].
  - apply shape_element_node_inv in Hout
      as (Htag & nodeid & _ & Hin & Hnot & _).
    split; [exact Htag | now split].
  - apply shape_element_way_inv in Hout
      as (Htag & wayid & refs & _ & Hin & Hnot & _ & _ & Hrefs & ->).
    split; [exact Htag|]. split; [now split|].
    exists refs. split; [exact Hrefs | apply way_nodes_of_node_ids].
Qed.

Lemma shape_element_uppercased_witness :
  (exists out,
     shape_element example_streets example_cities node_lower_id = Ok (Some out)
     /\ match out with
        | ShapedNode node _ =>
            tag node_lower_id = "node"
            /\ uppercased_record NODE_FIELDS node_lower_id node
        | ShapedWay way way_nodes _ =>
            tag node_lower_id = "way"
            /\ uppercased_record WAY_FIELDS node_lower_id way
            /\ uppercased_refs node_lower_id way_nodes
        end)
  /\ (exists out,
        shape_element example_streets example_cities way_lower = Ok (Some out)
        /\ match out with
           | ShapedNode node _ =>
               tag way_lower = "node"
               /\ uppercased_record NODE_FIELDS way_lower node
           | ShapedWay way way_nodes _ =>
               tag way_lower = "way"
               /\ uppercased_record WAY_FIELDS way_lower way
               /\ uppercased_refs way_lower way_nodes
           end).
Proof.
  split.
  - apply (shape_element_uppercased example_streets example_cities
             node_lower_id).
    left. split; [reflexivity|]. split.
    + intros field Hin. cbn in Hin.
      repeat (destruct Hin as [<-|Hin]; [vm_compute; eauto|]). destruct Hin.
    + constructor; [|constructor]. exists "amenity", "fast_food".
      repeat split; reflexivity.
  - apply (shape_element_uppercased example_streets example_cities way_lower).
    right. split; [reflexivity|]. split; [|split].
    + intros field Hin. cbn in Hin.
      repeat (destruct Hin as [<-|Hin]; [vm_compute; eauto|]). destruct Hin.
    + constructor.
    + repeat constructor; vm_compute; eauto.
Defined.

(** X9: a shaped element has one tag record for every tag element
    anywhere below it (not only for its children), in document order; the
    record carries the id attribute of the element as it is and the key,
    value and type that [handle_tags] gives for the k and v of the tag
    element. *)
Theorem shape_element_tag_records CR CRC element out :
  shape_element CR CRC element = Ok (Some out) ->
  exists elemid,
    attrib element !! "id" = Some elemid
    /\ Forall2 (tag_record_of CR CRC elemid) (iter "tag" element)
         (shaped_tags out).
Proof.
  unfold shape_element.
  destruct (String.eqb (tag element) "node").
  - destruct (field_loop NODE_FIELDS element ∅ EmptyString)
      as [[attribs nodeid]|] eqn:Hfields; [|discriminate].
    cbn [bind fst snd].
    destruct (tag_loop CR CRC (iter "tag" element) nodeid element [])
      as [[element' tags']|] eqn:Htags; [|discriminate].
    cbn [bind snd]. intros [= <-].
    apply field_loop_lookup in Hfields as (_ & _ & Hid & _).
    apply tag_loop_records in Htags as (new & -> & Hall).
    exists nodeid. split; [apply Hid; now left | exact Hall].
  - destruct (String.eqb (tag element) "way"); [|discriminate].
    destruct (field_loop WAY_FIELDS element ∅ EmptyString)
      as [[attribs wayid]|] eqn:Hfields; [|discriminate].
    cbn [bind fst snd].
    destruct (tag_loop CR CRC (iter "tag" element) wayid element [])
      as [[element' tags']|] eqn:Htags; [|discriminate].
    cbn [bind fst snd].
    destruct (nd_loop (iter "nd" element') wayid 0 []); [|discriminate].
    cbn [bind]. intros [= <-].
    apply field_loop_lookup in Hfields as (_ & _ & Hid & _).
    apply tag_loop_records in Htags as (new & -> & Hall).
    exists wayid. split; [apply Hid; now left | exact Hall].
Qed.

Lemma shape_element_tag_records_witness :
  exists elemid,
    attrib way_refs_tagged !! "id" = Some elemid
    /\ Forall2 (tag_record_of example_streets example_cities elemid)
         (iter "tag" way_refs_tagged)
         [TagValues "209809850" "building" "YES" "regular"].
Proof.
  apply (shape_element_tag_records example_streets example_cities
           way_refs_tagged
           (ShapedWay (Py.upper <$> attrib way_refs_tagged) []
              [TagValues "209809850" "building" "YES" "regular"])).
  vm_compute. reflexivity.
Defined.

(** X10: for a node, [shape_element] returns a dict exactly when the
    node has the eight attributes of [NODE_FIELDS] and every tag element
    below it has a k, a v, a key without problem characters and, when
    the key is a street or city key, a value that is a [str]; in every
    other case it raises. *)
Theorem shape_element_node_returns_iff CR CRC element :
  tag element = "node" ->
  ((exists out, shape_element CR CRC element = Ok (Some out))
   <-> has_fields NODE_FIELDS element /\ Forall clean_tag (iter "tag" element))
  /\ shape_element CR CRC element <> Ok None.
Proof.
  intros Htag. unfold shape_element. rewrite Htag. cbn [String.eqb].
  change (String.eqb "node" "node") with true. cbv iota.
  destruct (field_loop NODE_FIELDS element ∅ EmptyString)
    as [[attribs nodeid]|] eqn:Hfields; cbn [bind fst snd].
  - destruct (tag_loop CR CRC (iter "tag" element) nodeid element [])
      as [[element' tags']|] eqn:Htags; cbn [bind snd].
    + split; [|discriminate]. split; [intros _|eauto].
      split; [eapply field_loop_has_fields, Hfields
             | eapply tag_loop_clean, Htags].
    + split; [|discriminate]. split; [intros [out Hout]; discriminate|].
      intros [_ Hclean].
      destruct (tag_loop_total CR CRC _ nodeid element [] Hclean) as [st Hst].
      congruence.
  - split; [|discriminate]. split; [intros [out Hout]; discriminate|].
    intros [Hhas _].
    destruct (field_loop_total _ _ ∅ EmptyString Hhas) as [st Hst].
    congruence.
Qed.

Lemma shape_element_node_returns_iff_witness :
  ((exists out,
      shape_element example_streets example_cities node_lower_id
        = Ok (Some out))
   <-> has_fields NODE_FIELDS node_lower_id
       /\ Forall clean_tag (iter "tag" node_lower_id))
  /\ shape_element example_streets example_cities node_lower_id <> Ok None.
Proof.
  exact (shape_element_node_returns_iff example_streets example_cities
           node_lower_id eq_refl).
Defined.

(** X11: for a way, [shape_element] returns a dict exactly when the way
    has the six attributes of [WAY_FIELDS], every tag element below it
    has a k, a v, a key without problem characters and, when the key is
    a street or city key, a value that is a [str], and every nd element
    below the element that the nd loop starts from has a ref. *)
Theorem shape_element_way_returns_iff CR CRC element :
  tag element = "way" ->
  ((exists out, shape_element CR CRC element = Ok (Some out))
   <-> has_fields WAY_FIELDS element
       /\ Forall clean_tag (iter "tag" element)
       /\ Forall (fun nd => is_Some (attrib nd !! "ref"))
            (iter "nd" (working_element element)))
  /\ shape_element CR CRC element <> Ok None.
Proof.
  intros Htag. unfold shape_element. rewrite Htag.
  change (String.eqb "way" "node") with false.
  change (String.eqb "way" "way") with true. cbv iota.
  destruct (field_loop WAY_FIELDS element ∅ EmptyString)
    as [[attribs wayid]|] eqn:Hfields; cbn [bind fst snd].
  - destruct (tag_loop CR CRC (iter "tag" element) wayid element [])
      as [[element' tags']|] eqn:Htags; cbn [bind fst snd].
    + pose proof (tag_loop_ok _ _ _ _ _ _ _ _ Htags) as (-> & _).
      fold (working_element element).
      pose proof (nd_loop_refs (iter "nd" (working_element element)) wayid 0 [])
        as Hnd.
      destruct (nd_loop (iter "nd" (working_element element)) wayid 0 [])
        as [way_nodes|] eqn:Hloop; cbn [bind].
      * split; [|discriminate]. split; [intros _|eauto].
        split; [eapply field_loop_has_fields, Hfields|].
        split; [eapply tag_loop_clean, Htags|].
        apply Hnd. eauto.
      * split; [|discriminate]. split; [intros [out Hout]; discriminate|].
        intros (_ & _ & Hrefs). apply Hnd in Hrefs as [out Hout]. discriminate.
    + split; [|discriminate]. split; [intros [out Hout]; discriminate|].
      intros (_ & Hclean & _).
      destruct (tag_loop_total CR CRC _ wayid element [] Hclean) as [st Hst].
      congruence.
  - split; [|discriminate]. split; [intros [out Hout]; discriminate|].
    intros [Hhas _].
    destruct (field_loop_total _ _ ∅ EmptyString Hhas) as [st Hst].
    congruence.
Qed.

Lemma shape_element_way_returns_iff_witness :
  ((exists out,
      shape_element example_streets example_cities way_refs_tagged
        = Ok (Some out))
   <-> has_fields WAY_FIELDS way_refs_tagged
       /\ Forall clean_tag (iter "tag" way_refs_tagged)
       /\ Forall (fun nd => is_Some (attrib nd !! "ref"))
            (iter "nd" (working_element way_refs_tagged)))
  /\ shape_element example_streets example_cities way_refs_tagged <> Ok None.
Proof.
  exact (shape_element_way_returns_iff example_streets example_cities
           way_refs_tagged eq_refl).
Defined.

(** X12: a way without tag elements gets one way_nodes record for every
    nd element below it, in document order: the record carries the id
    attribute of the way as it is, the upper-cased ref, and the positions
    run from 0 without a gap. There are no tag records. *)
Theorem shape_element_way_without_tags CR CRC element way way_nodes tags :
  shape_element CR CRC element = Ok (Some (ShapedWay way way_nodes tags)) ->
  iter "tag" element = [] ->
  tags = []
  /\ map wn_position way_nodes = seq 0 (length (iter "nd" element))
  /\ exists wayid refs,
       attrib element !! "id" = Some wayid
       /\ Forall2 (fun nd ref => attrib nd !! "ref" = Some ref)
            (iter "nd" element) refs
       /\ way_nodes = way_nodes_of wayid refs.
Proof.
  intros Hshape Hnotag.
  apply shape_element_way_inv in Hshape
    as (_ & wayid & refs & Hid & _ & _ & Hlen & _ & Hrefs & ->).
  unfold working_element in Hrefs. rewrite Hnotag in *. cbn [List.last] in Hrefs.
  split; [now destruct tags|].
  split; [rewrite way_nodes_of_positions; f_equal;
          symmetry; eapply Forall2_length, Hrefs|].
  exists wayid, refs. auto.
Qed.

Lemma shape_element_way_without_tags_witness :
  @nil tag_values = []
  /\ map wn_position
       [WayNodeValues "209809850" "10" 0; WayNodeValues "209809850" "20" 1;
        WayNodeValues "209809850" "10" 2]
     = seq 0 (length (iter "nd" way_refs))
  /\ exists wayid refs,
       attrib way_refs !! "id" = Some wayid
       /\ Forall2 (fun nd ref => attrib nd !! "ref" = Some ref)
            (iter "nd" way_refs) refs
       /\ [WayNodeValues "209809850" "10" 0; WayNodeValues "209809850" "20" 1;
           WayNodeValues "209809850" "10" 2]
          = way_nodes_of wayid refs.
Proof.
  apply (shape_element_way_without_tags example_streets example_cities
           way_refs (Py.upper <$> attrib way_refs)).
  - vm_compute. reflexivity.
  - reflexivity.
Defined.

(** ** The audit of street types *)

Lemma isin_app x (l1 l2 : list string) :
  Pd.isin x (l1 ++ l2) = Pd.isin x l1 || Pd.isin x l2.
Proof. unfold Pd.isin. apply existsb_app. Qed.

(** A string that is in no cell of the frame is in neither of the two
    columns that [update_name] searches. *)
Lemma frame_values_columns x CR :
  Pd.isin x (frame_values CR) = false ->
  first_row CommonName x CR = None /\ first_row USPSName x CR = None.
Proof.
  unfold frame_values, first_row, Pd.isin.
  induction CR as [|row CR IH]; [now split|].
  cbn [flat_map app existsb List.find].
  rewrite !orb_false_iff. intros (_ & Hcn & Hun & Hrest).
  rewrite Hcn, Hun. now apply IH.
Qed.

(** X13: what [audit_street_type] leaves in the dict. A name is in the
    set of a key after the call exactly when it was there before, or it
    is the audited name, the name is a [str], the key is the token that
    [street_type_re] finds in it (spelled as in the name) and the
    upper-cased token is in no cell of the frame. Nothing is ever
    removed. The call raises, and then [TypeError], exactly for a
    [unicode] name in which a token is found. *)
Theorem audit_street_type_records street_types street_name CR key x :
  (x ∈ default ∅ (fst (audit_street_type street_types street_name CR) !! key)
   <-> x ∈ default ∅ (street_types !! key)
       \/ (x = street_name
           /\ Py.is_unicode street_name = false
           /\ Re.street_type_re_search street_name = Some key
           /\ Pd.isin (Py.upper key) (frame_values CR) = false))
  /\ (forall e,
        snd (audit_street_type street_types street_name CR) = Raise e
        <-> e = TypeError
            /\ Py.is_unicode street_name = true
            /\ Re.street_type_re_search street_name <> None).
Proof.
  unfold audit_street_type, Py.str_upper_of.
  destruct (Re.street_type_re_search street_name) as [street_type|];
    cbn [fst snd].
  - destruct (Py.is_unicode street_name) eqn:Hstr; cbn [fst snd].
    + split.
      * split; [auto|]. intros [H|(_ & H & _)]; [exact H | discriminate].
      * intros e. split; [intros [= <-]; now repeat split|].
        now intros (-> & _).
    + split; [|intros e; split; [discriminate | intros (_ & H & _); discriminate]].
      destruct (Pd.isin (Py.upper street_type) (frame_values CR)) eqn:Hin;
        cbn [negb].
      * split; [auto|].
        intros [H|(_ & _ & [= ->] & H)]; [exact H | congruence].
      * unfold defaultdict_add.
        destruct (decide (street_type = key)) as [<-|Hne].
        -- rewrite lookup_insert_eq. unfold default at 1. cbn [from_option id].
           rewrite elem_of_union, elem_of_singleton. split.
           ++ intros [->|H]; [right | left]; auto.
           ++ intros [H|(-> & _)]; [right | left]; auto.
        -- rewrite lookup_insert_ne by exact Hne. split; [auto|].
           intros [H|(_ & _ & [= ->] & _)]; [exact H | now destruct Hne].
  - split.
    + split; [auto|]. intros [H|(_ & _ & H & _)]; [exact H | discriminate].
    + intros e. split; [discriminate | intros (_ & _ & H); now destruct H].
Qed.

(** X14: a name whose recording changes the dict is a name that
    [update_name] cannot expand: its token is in no cell of the frame, so
    neither column maps it and [update_name] only upper-cases the name. *)
Theorem audit_street_type_update_name street_types street_name CR :
  fst (audit_street_type street_types street_name CR) <> street_types ->
  update_name street_name CR = Ok (Py.upper street_name).
Proof.
  unfold audit_street_type, Py.str_upper_of.
  destruct (Py.is_unicode street_name) eqn:Hstr.
  - destruct (Re.street_type_re_search street_name);
      cbn [fst]; intros H; now destruct H.
  - rewrite update_name_full_form by exact Hstr.
    destruct (Re.street_type_re_search street_name) as [street_type|];
      [|reflexivity].
    destruct (Pd.isin (Py.upper street_type) (frame_values CR)) eqn:Hin;
      cbn [negb fst]; [intros H; now destruct H|].
    intros _. unfold full_form.
    destruct (frame_values_columns _ _ Hin) as [-> ->]. reflexivity.
Qed.

Lemma audit_street_type_update_name_witness :
  update_name "Sunset Blvd" example_streets = Ok "SUNSET BLVD".
Proof.
  apply (audit_street_type_update_name ∅ "Sunset Blvd" example_streets).
  intros H. apply (f_equal (fun d => d !! "Blvd")) in H.
  vm_compute in H. discriminate H.
Defined.

(** X15: a tag that the audit takes for a street name (its k is
    addr:street) and whose v is a [str] is a tag that shaping normalizes
    as a street: its record has key addr, type street and the value that
    [update_name] gives for the upper-cased v. *)
Theorem is_street_name_tag_record CR CRC elemid elem v :
  is_street_name elem = Ok true ->
  attrib elem !! "v" = Some v ->
  Py.is_unicode v = false ->
  exists new_name,
    update_name (Py.upper v) CR = Ok new_name
    /\ tag_record_of CR CRC elemid elem (TagValues elemid "addr" new_name "street").
Proof.
  unfold is_street_name. intros Hk Hv Hstr.
  destruct (attrib elem !! "k") as [k|] eqn:Hattr;
    [|rewrite (getitem_missing _ _ Hattr) in Hk; discriminate].
  assert (getitem (attrib elem) "k" = Ok k) as Hget by now apply getitem_ok.
  rewrite Hget in Hk. cbn [bind] in Hk. injection Hk as Hk.
  apply String.eqb_eq in Hk as ->.
  destruct (update_name_str_upper (Py.upper v) CR) as (new_name & Hnew & _);
    [now rewrite is_unicode_upper|].
  exists new_name. split; [exact Hnew|].
  exists "addr:street", v, (KeyValueType "addr" new_name "street").
  split; [exact Hattr|]. split; [exact Hv|]. split; [|reflexivity].
  rewrite (handle_tags_street CR CRC "addr:street" v "regular")
    by reflexivity.
  now rewrite Hnew.
Qed.

Lemma is_street_name_tag_record_witness :
  exists new_name,
    update_name (Py.upper "West Lexington St.") example_streets = Ok new_name
    /\ tag_record_of example_streets example_cities "209809850"
         (tag_elem "addr:street" "West Lexington St.")
         (TagValues "209809850" "addr" new_name "street").
Proof.
  exact (is_street_name_tag_record example_streets example_cities "209809850"
           (tag_elem "addr:street" "West Lexington St.") "West Lexington St."
           eq_refl eq_refl eq_refl).
Defined.

(** ** [addmappings] *)

Lemma first_row_app {R : Type} (by_ : R -> string) x (l1 l2 : list R) :
  first_row by_ x (l1 ++ l2) =
  match first_row by_ x l1 with
  | Some r => Some r
  | None => first_row by_ x l2
  end.
Proof.
  unfold first_row. induction l1 as [|r l1 IH]; [reflexivity|].
  cbn [app List.find]. now destruct (Py.eq_cell x (by_ r)).
Qed.

Lemma addmappings_loop_added st_list addedmappings stdin added stdin' :
  addmappings_loop st_list addedmappings stdin = Some (added, stdin') ->
  exists new,
    added = addedmappings ++ new
    /\ length new <= length st_list
    /\ Forall (added_row st_list) new.
Proof.
  revert addedmappings stdin.
  induction st_list as [|st st_list IH]; intros addedmappings stdin;
    cbn [addmappings_loop].
  - intros [= <- <-]. exists []. rewrite app_nil_r. repeat split; auto.
  - unfold Py.str_upper, Py.str_upper_of.
    destruct (Py.is_unicode st); [discriminate|].
    destruct stdin as [|map_ stdin]; [discriminate|]. cbn [raw_input].
    assert (forall new, Forall (added_row st_list) new ->
                        Forall (added_row (st :: st_list)) new) as Hweak.
    { intros new Hnew. eapply Forall_impl; [exact Hnew|].
      intros row (st' & Hin & Hrow).
      exists st'. split; [now right | exact Hrow]. }
    destruct (String.eqb map_ "Y").
    + destruct stdin as [|newvalue stdin]; [discriminate|]. cbn [raw_input].
      intros Hloop. destruct (IH _ _ Hloop) as (new & -> & Hlen & Hall).
      eexists (_ :: new). rewrite <- app_assoc. split; [reflexivity|].
      split; [simpl; lia|].
      constructor; [|now apply Hweak].
      exists st. split; [now left | now split].
    + intros Hloop. destruct (IH _ _ Hloop) as (new & -> & Hlen & Hall).
      exists new. split; [reflexivity|]. split; [simpl; lia | now apply Hweak].
Qed.

Lemma addmappings_added st_list CR stdin CR' stdin' :
  addmappings st_list CR stdin = Some (CR', stdin') ->
  exists added,
    CR' = CR ++ added
    /\ length added <= length st_list
    /\ Forall (added_row st_list) added.
Proof.
  unfold addmappings.
  destruct (addmappings_loop st_list [] stdin) as [[added stdin'']|] eqn:Hloop;
    [|discriminate].
  intros [= <- <-].
  apply addmappings_loop_added in Hloop as (new & -> & Hlen & Hall).
  exists new. auto.
Qed.

(** X16: [addmappings] only appends. The frame it returns (and saves)
    starts with the rows of the frame it was given, unchanged and in
    order; it adds at most one row per token of [st_list], and every
    added row has the upper-cased token in both its CommonName and its
    USPSName cell. *)
Theorem addmappings_appends st_list CR stdin CR' stdin' :
  addmappings st_list CR stdin = Some (CR', stdin') ->
  exists added,
    CR' = CR ++ added
    /\ length added <= length st_list
    /\ Forall (added_row st_list) added.
Proof. apply addmappings_added. Qed.

Lemma addmappings_appends_witness :
  exists added,
    [StreetRow "STREET" "ST" "ST"; StreetRow "BOULEVARD" "BLVD" "BLVD"]
    = [StreetRow "STREET" "ST" "ST"] ++ added
    /\ length added <= length ["Blvd"; "Pkwy"]
    /\ Forall (added_row ["Blvd"; "Pkwy"]) added.
Proof.
  exact (addmappings_appends ["Blvd"; "Pkwy"] [StreetRow "STREET" "ST" "ST"]
           ["Y"; "BOULEVARD"; "N"] _ [] eq_refl).
Defined.

(** No cell of a frame is the CommonName or the USPSName of a row added
    for a token that was in no cell of the frame. *)
Lemma added_rows_miss st_list CR added x :
  Forall (fun st => Pd.isin (Py.upper st) (frame_values CR) = false) st_list ->
  Forall (added_row st_list) added ->
  Pd.isin x (frame_values CR) = true ->
  first_row CommonName x added = None /\ first_row USPSName x added = None.
Proof.
  intros Hunknown Hadded Hx. unfold first_row.
  induction Hadded as [|row added (st & Hin & Hcn & Hun) _ IH]; [now split|].
  cbn [List.find]. rewrite Hcn, Hun.
  assert (Py.eq_cell x (Py.upper st) = false) as ->; [|exact IH].
  apply not_true_is_false. intros [_ ->]%eq_cell_true.
  rewrite Forall_forall in Hunknown.
  rewrite (Hunknown st) in Hx; [discriminate | now apply list_elem_of_In].
Qed.

(** X17: the expansions that the frame already had survive
    [addmappings]. When the tokens of [st_list] are in no cell of the
    frame, as the keys that the audit collects are, then for every name
    whose token is in some cell of the frame, [update_name] gives the
    same result with the returned frame as with the given one. *)
Theorem addmappings_keeps_expansions st_list CR stdin CR' stdin' name street_type :
  addmappings st_list CR stdin = Some (CR', stdin') ->
  Forall (fun st => Pd.isin (Py.upper st) (frame_values CR) = false) st_list ->
  Re.street_type_re_search name = Some street_type ->
  Pd.isin (Py.upper street_type) (frame_values CR) = true ->
  update_name name CR' = update_name name CR.
Proof.
  intros Hadd Hunknown Hsearch Hknown.
  apply addmappings_added in Hadd as (added & -> & _ & Hadded).
  destruct (Py.is_unicode name) eqn:Hstr;
    [now rewrite !update_name_unicode|].
  rewrite !update_name_full_form, Hsearch by exact Hstr. unfold full_form.
  rewrite !first_row_app.
  destruct (added_rows_miss _ _ _ _ Hunknown Hadded Hknown) as [-> ->].
  destruct (first_row CommonName (Py.upper street_type) CR); [reflexivity|].
  now destruct (first_row USPSName (Py.upper street_type) CR).
Qed.

Lemma addmappings_keeps_expansions_witness :
  update_name "LINCOLN ST"
    [StreetRow "STREET" "ST" "ST"; StreetRow "BOULEVARD" "BLVD" "BLVD"]
  = update_name "LINCOLN ST" [StreetRow "STREET" "ST" "ST"].
Proof.
  apply (addmappings_keeps_expansions ["Blvd"; "Pkwy"]
           [StreetRow "STREET" "ST" "ST"] ["Y"; "BOULEVARD"; "N"] _ []
           "LINCOLN ST" "ST").
  - reflexivity.
  - repeat constructor.
  - reflexivity.
  - reflexivity.
Defined.

(** X18: a token answered with Y is mapped from then on. When the first
    token of [st_list] is in no cell of the frame and the answers to its
    two prompts are Y and a new value, [update_name] with the returned
    frame replaces that token (in a [str] name where [street_type_re]
    finds it in any mix of cases) by the new value, whatever is answered
    for the tokens after it. *)
Theorem addmappings_maps_token st st_list CR newvalue stdin CR' stdin' name
    street_type :
  addmappings (st :: st_list) CR ("Y" :: newvalue :: stdin) = Some (CR', stdin') ->
  Pd.isin (Py.upper st) (frame_values CR) = false ->
  Py.is_unicode name = false ->
  Re.street_type_re_search name = Some street_type ->
  Py.upper street_type = Py.upper st ->
  update_name name CR' =
  Ok (Py.upper (Py.replace name (Py.upper st) newvalue)).
Proof.
  unfold addmappings. cbn [addmappings_loop raw_input].
  unfold Py.str_upper, Py.str_upper_of.
  destruct (Py.is_unicode st) eqn:Hst; [discriminate|].
  change (String.eqb "Y" "Y") with true. cbv iota. cbn [app].
  destruct (addmappings_loop st_list
              [StreetRow newvalue (Py.upper st) (Py.upper st)] stdin)
    as [[added stdin'']|] eqn:Hloop; [|discriminate].
  intros [= <- <-] Hunknown Hstr Hsearch Hupper.
  apply addmappings_loop_added in Hloop as (new & -> & _).
  rewrite update_name_full_form, Hsearch, Hupper by exact Hstr.
  unfold full_form. rewrite first_row_app.
  destruct (frame_values_columns _ _ Hunknown) as [-> _].
  unfold first_row. cbn [app List.find CommonName FullName].
  assert (Py.eq_cell (Py.upper st) (Py.upper st) = true) as ->; [|reflexivity].
  apply eq_cell_true. split; [now rewrite is_unicode_upper | reflexivity].
Qed.

Lemma addmappings_maps_token_witness :
  update_name "SUNSET BLVD"
    [StreetRow "STREET" "ST" "ST"; StreetRow "Boulevard" "BLVD" "BLVD"]
  = Ok "SUNSET BOULEVARD".
Proof.
  exact (addmappings_maps_token "Blvd" ["Pkwy"] [StreetRow "STREET" "ST" "ST"]
           "Boulevard" ["N"] _ [] "SUNSET BLVD" "BLVD"
           eq_refl eq_refl eq_refl eq_refl eq_refl).
Defined.

(** ** [buildcitiescrossreference] *)

(** An upper-cased name is never a column label of the city frame, so
    the test [str.upper(city) not in citiescrossreference] always
    holds. *)
Lemma upper_not_city_column x : Pd.isin (Py.upper x) CITY_COLUMNS = false.
Proof.
  apply not_true_is_false. unfold Pd.isin.
  intros (label & Hin & [_ H]%eq_cell_true)%existsb_exists.
  pose proof (upper_idem x) as Hi. rewrite H in Hi.
  destruct Hin as [<-|[<-|[]]]; discriminate Hi.
Qed.

Lemma buildcities_loop_added cities frame stdin frame' stdin' :
  buildcities_loop cities frame stdin = Some (frame', stdin') ->
  exists added,
    frame' = frame ++ added
    /\ map OriginalName added = map Py.upper cities
    /\ Forall (fun row => Py.upper (NewName row) = NewName row) added.
Proof.
  revert frame stdin.
  induction cities as [|city cities IH]; intros frame stdin;
    cbn [buildcities_loop].
  - intros [= <- <-]. exists []. rewrite app_nil_r. repeat split; auto.
  - unfold Py.str_upper, Py.str_upper_of.
    destruct (Py.is_unicode city); [discriminate|].
    rewrite upper_not_city_column. cbn [negb].
    destruct stdin as [|response stdin]; [discriminate|]. cbn [raw_input].
    destruct (String.eqb (Py.upper response) "Y") eqn:Hkeep.
    + intros Hloop. destruct (IH _ _ Hloop) as (added & -> & Hnames & Hupper).
      eexists (_ :: added). rewrite <- app_assoc. split; [reflexivity|].
      split; [simpl; now rewrite Hnames|].
      constructor; [apply upper_idem | exact Hupper].
    + destruct (String.eqb response "Y") eqn:Hy.
      { apply String.eqb_eq in Hy. subst response. discriminate Hkeep. }
      cbn [negb].
      destruct stdin as [|answer stdin]; [discriminate|]. cbn [raw_input].
      intros Hloop. destruct (IH _ _ Hloop) as (added & -> & Hnames & Hupper).
      eexists (_ :: added). rewrite <- app_assoc. split; [reflexivity|].
      split; [simpl; now rewrite Hnames|].
      constructor; [apply upper_idem | exact Hupper].
Qed.

Lemma buildcities_added cities on_disk stdin frame file stdin' :
  buildcitiescrossreference cities on_disk stdin = Some (frame, file, stdin') ->
  exists added,
    frame = on_disk ++ added
    /\ map OriginalName added = map Py.upper cities
    /\ Forall (fun row => Py.upper (NewName row) = NewName row) added
    /\ (file = frame \/ file = on_disk).
Proof.
  unfold buildcitiescrossreference.
  destruct (buildcities_loop cities on_disk stdin) as [[frame' stdin'']|] eqn:Hloop;
    [|discriminate].
  destruct stdin'' as [|write stdin'']; [discriminate|]. cbn [raw_input].
  apply buildcities_loop_added in Hloop as (added & -> & Hnames & Hupper).
  destruct (String.eqb (Py.upper write) "Y"); intros [= <- <- <-];
    exists added; auto.
Qed.

(** X19: [buildcitiescrossreference] asks about every city and appends
    one row for each, in order, whether the city file lists the city
    already or not: the membership test looks at the column labels of the
    frame, which an upper-cased name never equals. The rows of the file
    stay in front, unchanged; every new row has the upper-cased city as
    OriginalName and an upper-case NewName; the file afterwards holds
    either the returned frame or what it held before. *)
Theorem buildcities_appends cities on_disk stdin frame file stdin' :
  buildcitiescrossreference cities on_disk stdin = Some (frame, file, stdin') ->
  exists added,
    frame = on_disk ++ added
    /\ map OriginalName added = map Py.upper cities
    /\ Forall (fun row => Py.upper (NewName row) = NewName row) added
    /\ (file = frame \/ file = on_disk).
Proof. apply buildcities_added. Qed.

Lemma buildcities_appends_witness :
  exists added,
    [CityRow "LAS VEGAS" "LAS VEGAS"; CityRow "LAS VEGAS" "LAS VEGAS";
     CityRow "VEGAS" "LAS VEGAS"]
    = example_cities ++ added
    /\ map OriginalName added = map Py.upper ["Las Vegas"; "Vegas"]
    /\ Forall (fun row => Py.upper (NewName row) = NewName row) added
    /\ (example_cities =
          [CityRow "LAS VEGAS" "LAS VEGAS"; CityRow "LAS VEGAS" "LAS VEGAS";
           CityRow "VEGAS" "LAS VEGAS"]
        \/ example_cities = example_cities).
Proof.
  exact (buildcities_appends ["Las Vegas"; "Vegas"] example_cities
           ["y"; "n"; "Las Vegas"; "n"] _ _ [] eq_refl).
Defined.

Lemma first_row_some {R : Type} (by_ : R -> string) x (frame : list R) r :
  first_row by_ x frame = Some r -> In r frame /\ by_ r = x.
Proof.
  unfold first_row. intros H. apply find_some in H as [Hin Heq].
  apply eq_cell_true in Heq as [_ ->]. now split.
Qed.

(** X20: an answer given for a city that the file lists already has no
    effect on the lookups. For every name whose upper-cased form is in
    the OriginalName column of the file, [update_city_name] gives the
    same result with the returned frame as with the rows of the file:
    the rows of the file come first and the first match is taken. *)
Theorem buildcities_keeps_lookups cities on_disk stdin frame file stdin' name :
  buildcitiescrossreference cities on_disk stdin = Some (frame, file, stdin') ->
  Pd.isin (Py.upper name) (map OriginalName on_disk) = true ->
  update_city_name name frame = update_city_name name on_disk.
Proof.
  intros Hbuild Hin.
  apply buildcities_added in Hbuild as (added & -> & Hnames & _).
  rewrite !update_city_name_str
    by (rewrite <- is_unicode_upper; exact (isin_str _ _ Hin)).
  rewrite map_app, isin_app, Hin. cbn [orb].
  rewrite first_row_app.
  destruct (first_row OriginalName name on_disk) as [row|] eqn:Hdisk;
    [reflexivity|].
  destruct (first_row OriginalName name added) as [row|] eqn:Hadded;
    [|reflexivity].
  apply first_row_some in Hadded as [Hrow Hname].
  assert (In (OriginalName row) (map Py.upper cities)) as Hcity
    by (rewrite <- Hnames; now apply in_map).
  apply in_map_iff in Hcity as (city & Hcity & _).
  assert (Py.upper name = name) as Hup
    by (rewrite <- Hname, <- Hcity; apply upper_idem).
  rewrite Hup in Hin. apply isin_first_row in Hin as [row' Hrow'].
  congruence.
Qed.

Lemma buildcities_keeps_lookups_witness :
  update_city_name "LAS VEGAS"
    [CityRow "LAS VEGAS" "LAS VEGAS"; CityRow "LAS VEGAS" "HENDERSON"]
  = update_city_name "LAS VEGAS" example_cities.
Proof.
  exact (buildcities_keeps_lookups ["Las Vegas"] example_cities
           ["n"; "Henderson"; "n"] _ _ [] "LAS VEGAS" eq_refl eq_refl).
Defined.

(** X21: a city that the file does not list is mapped from then on.
    When the first city is not in the OriginalName column of the file,
    the answer to its first prompt is not y or Y and the answer to the
    second prompt is a name, [update_city_name] with the returned frame
    maps the upper-cased city to the upper-cased answer, whatever is
    answered for the cities after it. *)
Theorem buildcities_maps_city city cities on_disk response answer stdin
    frame file stdin' :
  buildcitiescrossreference (city :: cities) on_disk
    (response :: answer :: stdin) = Some (frame, file, stdin') ->
  Py.upper response <> "Y" ->
  Pd.isin (Py.upper city) (map OriginalName on_disk) = false ->
  update_city_name (Py.upper city) frame = Ok (Py.upper answer).
Proof.
  unfold buildcitiescrossreference. cbn [buildcities_loop].
  unfold Py.str_upper, Py.str_upper_of.
  destruct (Py.is_unicode city) eqn:Hcity; [discriminate|].
  rewrite upper_not_city_column. cbn [negb raw_input].
  intros Hbuild Hresponse Hmiss.
  assert (Py.eq_cell (Py.upper city) (Py.upper city) = true) as Hself
    by (apply eq_cell_true; split; [now rewrite is_unicode_upper | reflexivity]).
  apply String.eqb_neq in Hresponse. rewrite Hresponse in Hbuild.
  assert (String.eqb response "Y" = false) as Hy.
  { apply String.eqb_neq. intros ->. discriminate Hresponse. }
  rewrite Hy in Hbuild. cbn [negb] in Hbuild.
  destruct (buildcities_loop cities
              (on_disk ++ [CityRow (Py.upper city) (Py.upper answer)]) stdin)
    as [[frame' stdin'']|] eqn:Hloop; [|discriminate].
  apply buildcities_loop_added in Hloop as (added & -> & _).
  assert (frame = (on_disk ++ [CityRow (Py.upper city) (Py.upper answer)]) ++ added)
    as ->.
  { destruct stdin'' as [|write stdin'']; [discriminate|].
    cbn [raw_input] in Hbuild.
    destruct (String.eqb (Py.upper write) "Y"); now injection Hbuild. }
  apply (update_city_name_first_row _ _
           (CityRow (Py.upper city) (Py.upper answer))).
  - rewrite upper_idem, !map_app, !isin_app. cbn [map OriginalName].
    unfold Pd.isin at 2. cbn [existsb]. rewrite Hself.
    now rewrite orb_true_r.
  - rewrite !first_row_app.
    apply isin_false_first_row in Hmiss. rewrite Hmiss.
    unfold first_row at 1. cbn [List.find OriginalName].
    now rewrite Hself.
Qed.

Lemma buildcities_maps_city_witness :
  update_city_name (Py.upper "Vegas")
    [CityRow "LAS VEGAS" "LAS VEGAS"; CityRow "VEGAS" "LAS VEGAS"]
  = Ok (Py.upper "Las Vegas").
Proof.
  exact (buildcities_maps_city "Vegas" [] example_cities "n" "Las Vegas" ["n"]
           _ _ [] eq_refl ltac:(discriminate) eq_refl).
Defined.

(** ** [process_map] *)

Lemma isin_In x (l : list string) :
  Pd.isin x l = true <-> Py.is_unicode x = false /\ In x l.
Proof.
  unfold Pd.isin. rewrite existsb_exists. split.
  - intros (y & Hy & [Hstr ->]%eq_cell_true). now split.
  - intros [Hstr Hx]. exists x. split; [exact Hx | now apply eq_cell_true].
Qed.

(** The dict that [shape_element] makes has the field names as its keys,
    so the writer accepts it. *)
Lemma dict_to_list_record fields element record :
  Forall (fun field => Py.is_unicode field = false) fields ->
  uppercased_record fields element record ->
  dict_to_list fields record =
  Some (map (fun key => default EmptyString (record !! key)) fields).
Proof.
  intros Hstr [_ Hout]. unfold dict_to_list.
  assert (forallb (fun k => Pd.isin k fields) (map fst (map_to_list record))
          = true) as ->; [|reflexivity].
  apply forallb_forall. intros k Hk.
  apply in_map_iff in Hk as ([k' v] & <- & Hkv). cbn [fst].
  apply list_elem_of_In, elem_of_map_to_list in Hkv.
  apply isin_In. destruct (in_dec string_dec k' fields) as [Hin|Hnot].
  - split; [|exact Hin]. rewrite Forall_forall in Hstr.
    now apply Hstr, list_elem_of_In.
  - rewrite (Hout k' Hnot) in Hkv. discriminate.
Qed.

(** What one round of the loop does with a node. *)
Lemma write_element_node CR CRC files element node tags :
  shape_element CR CRC element = Ok (Some (ShapedNode node tags)) ->
  exists nodeid rest,
    attrib element !! "id" = Some nodeid
    /\ length rest = 7
    /\ Forall (fun t => tag_id t = nodeid) tags
    /\ length tags = length (iter "tag" element)
    /\ tag element = "node"
    /\ write_element files element (ShapedNode node tags) =
       (CsvFiles (nodes_file files ++ [Py.upper nodeid :: rest])
          (nodes_tags_file files ++ map tag_row tags)
          (ways_file files) (way_nodes_file files) (way_tags_file files),
        None).
Proof.
  intros Hshape.
  apply shape_element_node_inv in Hshape
    as (Htag & nodeid & Hid & Hin & Hout & Hlen & Hall).
  unfold write_element. rewrite Htag.
  change (String.eqb "node" "node") with true. cbv iota.
  rewrite (dict_to_list_record NODE_FIELDS element node);
    [|repeat (constructor; [reflexivity|]); constructor | now split].
  destruct (Hin "id") as (v & Hv & Hnode); [now left|].
  assert (v = nodeid) as -> by congruence.
  exists nodeid. eexists. split; [exact Hid|].
  split; [|split; [exact Hall|split; [exact Hlen|split; [reflexivity|]]]].
  2:{ cbn [NODE_FIELDS map]. rewrite Hnode. reflexivity. }
  reflexivity.
Qed.

(** What one round of the loop does with a way. *)
Lemma write_element_way CR CRC files element way way_nodes tags :
  shape_element CR CRC element = Ok (Some (ShapedWay way way_nodes tags)) ->
  exists wayid rest,
    attrib element !! "id" = Some wayid
    /\ length rest = 5
    /\ Forall (fun t => tag_id t = wayid) tags
    /\ Forall (fun n => wn_id n = wayid) way_nodes
    /\ length tags = length (iter "tag" element)
    /\ tag element = "way"
    /\ write_element files element (ShapedWay way way_nodes tags) =
       (CsvFiles (nodes_file files) (nodes_tags_file files)
          (ways_file files ++ [Py.upper wayid :: rest])
          (way_nodes_file files ++ map way_node_row way_nodes)
          (way_tags_file files ++ map tag_row tags),
        None).
Proof.
  intros Hshape.
  apply shape_element_way_inv in Hshape
    as (Htag & wayid & refs & Hid & Hin & Hout & Hlen & Hall & _ & ->).
  unfold write_element. rewrite Htag.
  change (String.eqb "way" "node") with false.
  change (String.eqb "way" "way") with true. cbv iota.
  rewrite (dict_to_list_record WAY_FIELDS element way);
    [|repeat (constructor; [reflexivity|]); constructor | now split].
  destruct (Hin "id") as (v & Hv & Hway); [now left|].
  assert (v = wayid) as -> by congruence.
  exists wayid. eexists. split; [exact Hid|].
  split; [|split; [exact Hall|split; [|split; [exact Hlen|split; [reflexivity|]]]]].
  3:{ cbn [WAY_FIELDS map]. rewrite Hway. reflexivity. }
  - reflexivity.
  - unfold way_nodes_of. apply Forall_map. simpl. now apply Forall_true.
Qed.

(** Writing the dict of an element never raises. *)
Lemma write_element_ok CR CRC files element el :
  shape_element CR CRC element = Ok (Some el) ->
  snd (write_element files element el) = None.
Proof.
  destruct el as [node tags|way way_nodes tags]; intros Hshape.
  - destruct (write_element_node _ _ files _ _ _ Hshape)
      as (? & ? & _ & _ & _ & _ & _ & ->). reflexivity.
  - destruct (write_element_way _ _ files _ _ _ _ Hshape)
      as (? & ? & _ & _ & _ & _ & _ & _ & ->). reflexivity.
Qed.

Lemma process_loop_cons CR CRC element rest files :
  process_loop CR CRC (element :: rest) files =
  match shape_element CR CRC element with
  | Raise e => (files, Some (Raised e))
  | Ok None => process_loop CR CRC rest files
  | Ok (Some el) =>
      process_loop CR CRC rest (fst (write_element files element el))
  end.
Proof.
  cbn [process_loop].
  destruct (shape_element CR CRC element) as [[el|]|e] eqn:Hshape;
    try reflexivity.
  pose proof (write_element_ok _ _ files _ _ Hshape) as Hok.
  destruct (write_element files element el) as [files' err].
  cbn [snd] in Hok. subst err. reflexivity.
Qed.

(** A property of the files that every write keeps holds at the end of
    the loop, however the loop ends. *)
Lemma process_loop_invariant CR CRC (Q : Element -> Prop)
    (P : csv_files -> Prop) :
  (forall files element el,
     Q element -> P files ->
     shape_element CR CRC element = Ok (Some el) ->
     P (fst (write_element files element el))) ->
  forall elements files,
    Forall Q elements -> P files ->
    P (fst (process_loop CR CRC elements files)).
Proof.
  intros Hstep elements.
  induction elements as [|element rest IH]; intros files HQ HP; [exact HP|].
  rewrite process_loop_cons. inversion HQ as [|? ? Helement Hrest]; subst.
  destruct (shape_element CR CRC element) as [[el|]|e] eqn:Hshape.
  - apply IH; [exact Hrest|]. now apply Hstep.
  - now apply IH.
  - exact HP.
Qed.

Lemma process_loop_none CR CRC elements files :
  snd (process_loop CR CRC elements files) = None
  <-> Forall (shapes CR CRC) elements.
Proof.
  revert files. induction elements as [|element rest IH]; intros files.
  - split; [constructor | reflexivity].
  - rewrite process_loop_cons.
    destruct (shape_element CR CRC element) as [[el|]|e] eqn:Hshape.
    + rewrite IH. split.
      * intros Hrest. constructor; [now exists (Some el) | exact Hrest].
      * intros H. now inversion H.
    + rewrite IH. split.
      * intros Hrest. constructor; [now exists None | exact Hrest].
      * intros H. now inversion H.
    + split; [discriminate|]. intros H. inversion H as [|? ? [out Hout] _].
      congruence.
Qed.

(** X22: a run of [process_map] ends without an exception exactly when
    [shape_element] returns for every element. Writing the rows never
    raises: the dicts have the field names of their writers as keys, and
    a dict that [shape_element] returns for a node is a node dict, for a
    way a way dict. *)
Theorem process_map_completes_iff CR CRC elements :
  snd (process_map CR CRC elements) = None
  <-> Forall (shapes CR CRC) elements.
Proof. apply process_loop_none. Qed.

Lemma process_loop_stops CR CRC elements files files' err :
  process_loop CR CRC elements files = (files', Some err) ->
  exists pre element post e,
    elements = pre ++ element :: post
    /\ shape_element CR CRC element = Raise e
    /\ err = Raised e
    /\ process_loop CR CRC pre files = (files', None).
Proof.
  revert files. induction elements as [|element rest IH]; intros files;
    [discriminate|].
  rewrite process_loop_cons.
  destruct (shape_element CR CRC element) as [[el|]|e] eqn:Hshape.
  - intros Hloop.
    destruct (IH _ Hloop) as (pre & x & post & e & -> & Hx & -> & Hpre).
    exists (element :: pre), x, post, e.
    rewrite process_loop_cons, Hshape. auto.
  - intros Hloop.
    destruct (IH _ Hloop) as (pre & x & post & e & -> & Hx & -> & Hpre).
    exists (element :: pre), x, post, e.
    rewrite process_loop_cons, Hshape. auto.
  - intros [= <- <-]. exists [], element, rest, e. auto.
Qed.

(** X23: when a run of [process_map] ends with an exception, the
    exception is the one that [shape_element] raises for the first
    element it cannot shape, and the files hold exactly what a complete
    run over the elements before that one writes: the rows of the
    earlier elements stay, the failing element and the elements after it
    leave no row. *)
Theorem process_map_stops_at_first_error CR CRC elements files err :
  process_map CR CRC elements = (files, Some err) ->
  exists pre element post e,
    elements = pre ++ element :: post
    /\ shape_element CR CRC element = Raise e
    /\ err = Raised e
    /\ process_map CR CRC pre = (files, None).
Proof. apply process_loop_stops. Qed.

Lemma process_map_stops_at_first_error_witness :
  exists pre element post e,
    [way_refs; node_opening_hours; node_lower_id] = pre ++ element :: post
    /\ shape_element example_streets example_cities element = Raise e
    /\ Raised (UnboundLocalError "type_name") = Raised e
    /\ process_map example_streets example_cities pre =
       (fst (process_map example_streets example_cities [way_refs]), None).
Proof.
  apply (process_map_stops_at_first_error example_streets example_cities
           [way_refs; node_opening_hours; node_lower_id]).
  vm_compute. reflexivity.
Defined.

Lemma hd_error_app {A : Type} (l1 l2 : list A) x :
  hd_error l1 = Some x -> hd_error (l1 ++ l2) = Some x.
Proof. now destruct l1. Qed.

(** X24: whatever the elements are and however the run ends, every file
    starts with its header row and every row has as many cells as the
    file has field names: 8 in nodes.csv, 6 in ways.csv, 4 in the two
    tag files and 3 in ways_nodes.csv. *)
Theorem process_map_well_formed CR CRC elements :
  well_formed_files (fst (process_map CR CRC elements)).
Proof.
  unfold process_map.
  apply (process_loop_invariant CR CRC (fun _ => True)).
  - intros files element el _ (Hn & Hnt & Hw & Hwn & Hwt) Hshape.
    destruct el as [node tags|way way_nodes tags].
    + destruct (write_element_node _ _ files _ _ _ Hshape)
        as (nodeid & rest & _ & Hlen & _ & _ & _ & ->).
      cbn [fst]. unfold well_formed_files.
      cbn [nodes_file nodes_tags_file ways_file way_nodes_file way_tags_file].
      repeat apply conj; try tauto.
      * now apply hd_error_app.
      * apply Forall_app. split; [tauto|].
        constructor; [simpl; now rewrite Hlen | constructor].
      * now apply hd_error_app.
      * apply Forall_app. split; [tauto|]. apply Forall_map.
        now apply Forall_true.
    + destruct (write_element_way _ _ files _ _ _ _ Hshape)
        as (wayid & rest & _ & Hlen & _ & _ & _ & _ & ->).
      cbn [fst]. unfold well_formed_files.
      cbn [nodes_file nodes_tags_file ways_file way_nodes_file way_tags_file].
      repeat apply conj; try tauto.
      * now apply hd_error_app.
      * apply Forall_app. split; [tauto|].
        constructor; [simpl; now rewrite Hlen | constructor].
      * now apply hd_error_app.
      * apply Forall_app. split; [tauto|]. apply Forall_map.
        now apply Forall_true.
      * now apply hd_error_app.
      * apply Forall_app. split; [tauto|]. apply Forall_map.
        now apply Forall_true.
  - now apply Forall_true.
  - unfold well_formed_files, headers. cbn.
    repeat apply conj; try reflexivity; now repeat constructor.
Qed.

Lemma id_cells_app (file rows : list (list string)) :
  file <> [] -> id_cells (file ++ rows) = id_cells file ++ map (hd EmptyString) rows.
Proof.
  destruct file as [|header file]; [congruence|]. intros _.
  unfold id_cells. cbn [app tl]. apply map_app.
Qed.

Lemma tag_rows_ids (tags : list tag_values) id :
  Forall (fun t => tag_id t = id) tags ->
  forall x, In x (map (hd EmptyString) (map tag_row tags)) -> x = id.
Proof.
  intros Hall x Hx. rewrite map_map in Hx.
  apply in_map_iff in Hx as (t & <- & Ht).
  rewrite Forall_forall in Hall. apply Hall. now apply list_elem_of_In.
Qed.

Lemma way_node_rows_ids (way_nodes : list way_node_values) id :
  Forall (fun n => wn_id n = id) way_nodes ->
  forall x, In x (map (hd EmptyString) (map way_node_row way_nodes)) -> x = id.
Proof.
  intros Hall x Hx. rewrite map_map in Hx.
  apply in_map_iff in Hx as (n & <- & Hn).
  rewrite Forall_forall in Hall. apply Hall. now apply list_elem_of_In.
Qed.

Lemma incl_app_ids (small big : list string) (new : list string) id :
  incl small big ->
  (forall x, In x new -> x = id) ->
  incl (small ++ new) (big ++ [id]).
Proof.
  intros Hincl Hnew x Hx. apply in_app_iff in Hx as [Hx|Hx].
  - apply in_app_iff. left. now apply Hincl.
  - apply in_app_iff. right. left. symmetry. now apply Hnew.
Qed.

Lemma process_loop_ids_resolve CR CRC elements files :
  Forall upper_id elements ->
  well_formed_files files /\ ids_resolve files ->
  ids_resolve (fst (process_loop CR CRC elements files)).
Proof.
  intros Hupper Hfiles.
  apply (process_loop_invariant CR CRC upper_id
           (fun files =>
              (nodes_file files <> [] /\ nodes_tags_file files <> []
               /\ ways_file files <> [] /\ way_nodes_file files <> []
               /\ way_tags_file files <> [])
              /\ ids_resolve files)); [| exact Hupper |].
  - clear. intros files element el Hid
      [(Hn & Hnt & Hw & Hwn & Hwt) (Hr1 & Hr2 & Hr3)] Hshape.
    destruct el as [node tags|way way_nodes tags].
    + destruct (write_element_node _ _ files _ _ _ Hshape)
        as (nodeid & rest & Hattr & _ & Htags & _ & _ & ->).
      rewrite (Hid nodeid Hattr). cbn [fst]. unfold ids_resolve.
      cbn [nodes_file nodes_tags_file ways_file way_nodes_file way_tags_file].
      split; [repeat split; try assumption;
              intros H; now apply app_eq_nil in H as [? _]|].
      split; [|now split].
      rewrite !id_cells_app by assumption. cbn [map hd].
      apply incl_app_ids; [exact Hr1 | now apply tag_rows_ids].
    + destruct (write_element_way _ _ files _ _ _ _ Hshape)
        as (wayid & rest & Hattr & _ & Htags & Hnodes & _ & _ & ->).
      rewrite (Hid wayid Hattr). cbn [fst]. unfold ids_resolve.
      cbn [nodes_file nodes_tags_file ways_file way_nodes_file way_tags_file].
      split; [repeat split; try assumption;
              intros H; now apply app_eq_nil in H as [? _]|].
      split; [exact Hr1|].
      rewrite !id_cells_app by assumption. cbn [map hd].
      split; apply incl_app_ids; try assumption;
        [now apply tag_rows_ids | now apply way_node_rows_ids].
  - destruct Hfiles as [((Hn & _) & (Hnt & _) & (Hw & _) & (Hwn & _) & (Hwt & _)) Hres].
    split; [|exact Hres].
    repeat split; intros H; rewrite H in *; discriminate.
Qed.

(** X25: when the id attribute of every element is upper-case, as the
    numeric ids of a map file are, the ids in the files resolve: every id
    in nodes_tags.csv is the id of a row of nodes.csv, and every id in
    ways_tags.csv and in ways_nodes.csv is the id of a row of ways.csv,
    however the run ends. *)
Theorem process_map_ids_resolve CR CRC elements :
  Forall upper_id elements ->
  ids_resolve (fst (process_map CR CRC elements)).
Proof.
  intros Hupper. apply process_loop_ids_resolve; [exact Hupper|].
  split.
  - unfold well_formed_files, headers. cbn.
    repeat apply conj; try reflexivity; now repeat constructor.
  - unfold ids_resolve, headers, id_cells. cbn. repeat split; apply incl_nil_l.
Qed.

Lemma process_map_ids_resolve_witness :
  ids_resolve
    (fst (process_map example_streets example_cities
            [way_refs; way_refs_tagged; node_opening_hours])).
Proof.
  apply (process_map_ids_resolve example_streets example_cities
           [way_refs; way_refs_tagged; node_opening_hours]).
  repeat constructor; intros id H; vm_compute in H;
    injection H as <-; reflexivity.
Defined.

Lemma shape_element_none CR CRC element :
  shape_element CR CRC element = Ok None ->
  String.eqb (tag element) "node" = false
  /\ String.eqb (tag element) "way" = false.
Proof.
  unfold shape_element.
  destruct (String.eqb (tag element) "node").
  - destruct (field_loop NODE_FIELDS element ∅ EmptyString)
      as [[attribs nodeid]|]; [|discriminate].
    cbn [bind fst snd].
    destruct (tag_loop CR CRC (iter "tag" element) nodeid element [])
      as [[element' tags']|]; discriminate.
  - destruct (String.eqb (tag element) "way"); [|now split].
    destruct (field_loop WAY_FIELDS element ∅ EmptyString)
      as [[attribs wayid]|]; [|discriminate].
    cbn [bind fst snd].
    destruct (tag_loop CR CRC (iter "tag" element) wayid element [])
      as [[element' tags']|]; [|discriminate].
    cbn [bind fst snd].
    destruct (nd_loop (iter "nd" element') wayid 0 []); discriminate.
Qed.

Lemma process_loop_row_counts CR CRC elements files :
  snd (process_loop CR CRC elements files) = None ->
  let files' := fst (process_loop CR CRC elements files) in
  length (nodes_file files') =
    length (nodes_file files) + length (with_tag "node" elements)
  /\ length (ways_file files') =
     length (ways_file files) + length (with_tag "way" elements)
  /\ length (nodes_tags_file files') =
     length (nodes_tags_file files)
     + length (flat_map (iter "tag") (with_tag "node" elements))
  /\ length (way_tags_file files') =
     length (way_tags_file files)
     + length (flat_map (iter "tag") (with_tag "way" elements)).
Proof.
  revert files. induction elements as [|element rest IH]; intros files.
  - intros _. cbn. repeat split; lia.
  - rewrite process_loop_cons. unfold with_tag in *. cbn [List.filter].
    destruct (shape_element CR CRC element) as [[el|]|e] eqn:Hshape;
      [| |discriminate].
    + intros Hnone. specialize (IH _ Hnone). cbv zeta in IH.
      destruct IH as (IH1 & IH2 & IH3 & IH4). cbv zeta.
      destruct el as [node tags|way way_nodes tags].
      * destruct (write_element_node _ _ files _ _ _ Hshape)
          as (nodeid & row & _ & _ & _ & Hlen & Htag & Hwrite).
        rewrite Hwrite in *. cbn [fst] in *.
        cbn [nodes_file nodes_tags_file ways_file way_tags_file] in *.
        rewrite Htag. change (String.eqb "node" "node") with true.
        change (String.eqb "node" "way") with false. cbv iota.
        cbn [flat_map length].
        rewrite IH1, IH2, IH3, IH4, !length_app, length_map, Hlen.
        cbn [length]. repeat split; lia.
      * destruct (write_element_way _ _ files _ _ _ _ Hshape)
          as (wayid & row & _ & _ & _ & _ & Hlen & Htag & Hwrite).
        rewrite Hwrite in *. cbn [fst] in *.
        cbn [nodes_file nodes_tags_file ways_file way_tags_file] in *.
        rewrite Htag. change (String.eqb "way" "node") with false.
        change (String.eqb "way" "way") with true. cbv iota.
        cbn [flat_map length].
        rewrite IH1, IH2, IH3, IH4, !length_app, length_map, Hlen.
        cbn [length]. repeat split; lia.
    + intros Hnone. specialize (IH _ Hnone).
      destruct (shape_element_none _ _ _ Hshape) as [-> ->]. exact IH.
Qed.

(** X26: after a run that ends without an exception, nodes.csv has one
    row for every node element and ways.csv one for every way element
    below their headers, and each of the two tag files has one row for
    every tag element anywhere below the elements of its kind. *)
Theorem process_map_row_counts CR CRC elements :
  snd (process_map CR CRC elements) = None ->
  let files := fst (process_map CR CRC elements) in
  length (nodes_file files) = 1 + length (with_tag "node" elements)
  /\ length (ways_file files) = 1 + length (with_tag "way" elements)
  /\ length (nodes_tags_file files) =
     1 + length (flat_map (iter "tag") (with_tag "node" elements))
  /\ length (way_tags_file files) =
     1 + length (flat_map (iter "tag") (with_tag "way" elements)).
Proof. apply process_loop_row_counts. Qed.

Lemma process_map_row_counts_witness :
  let files :=
    fst (process_map example_streets example_cities
           [node_lower_id; way_refs_tagged; way_refs]) in
  length (nodes_file files) =
    1 + length (with_tag "node" [node_lower_id; way_refs_tagged; way_refs])
  /\ length (ways_file files) =
     1 + length (with_tag "way" [node_lower_id; way_refs_tagged; way_refs])
  /\ length (nodes_tags_file files) =
     1 + length (flat_map (iter "tag")
                   (with_tag "node" [node_lower_id; way_refs_tagged; way_refs]))
  /\ length (way_tags_file files) =
     1 + length (flat_map (iter "tag")
                   (with_tag "way" [node_lower_id; way_refs_tagged; way_refs])).
Proof.
  apply (process_map_row_counts example_streets example_cities
           [node_lower_id; way_refs_tagged; way_refs]).
  vm_compute. reflexivity.
Defined.
